(** * MFA report pipeline: field normalisers, fetch post-processing,
      record merge and report rows

    A shallow embedding of [helpers.py] and of the merge step of [main.py].

    Python values coming out of the JSON decoder are modelled by the
    inductive type [value]; a Python [dict] is an insertion-ordered
    association list with Python's update discipline ([dict_set] overwrites
    in place, or appends); exceptions are modelled by the [result] monad.
    The regular expressions of the source ([re.search], [re.findall] and the
    one that [datetime.strptime] builds from its format) are run by a small
    backtracking matcher with the priorities of Python's [re] module.
    Strings are sequences of 8-bit characters. *)

From Stdlib Require Import List String Ascii Bool Arith ZArith Lia.
Import ListNotations.
Open Scope string_scope.
Open Scope list_scope.
Set Warnings "-register-all".

(** ** Exceptions *)

Inductive exn : Type :=
| KeyError (key : string)
| ValueError
| TypeError
| Exception (cause : exn).

Inductive result (A : Type) : Type :=
| Ok (a : A)
| Raise (e : exn).
Arguments Ok {A} a.
Arguments Raise {A} e.

Definition bind {A B : Type} (m : result A) (f : A -> result B) : result B :=
  match m with
  | Ok a => f a
  | Raise e => Raise e
  end.

Notation "x <- m ;; k" := (bind m (fun x => k))
  (at level 61, m at next level, right associativity).

(** A list comprehension whose body may raise: elements are evaluated from
    left to right and the first exception aborts the comprehension. *)
Fixpoint comprehension {A B : Type} (f : A -> result B) (l : list A)
  : result (list B) :=
  match l with
  | [] => Ok []
  | a :: l' => b <- f a ;; bs <- comprehension f l' ;; Ok (b :: bs)
  end.

Definition raises {A : Type} (m : result A) : Prop :=
  exists e, m = Raise e.

(** ** Python dictionaries *)

Module Dict.

Definition t (V : Type) : Type := list (string * V).

Definition keys {V : Type} (d : t V) : list string := map fst d.

Fixpoint get {V : Type} (k : string) (d : t V) : option V :=
  match d with
  | [] => None
  | (k', v) :: d' => if String.eqb k k' then Some v else get k d'
  end.

Definition mem {V : Type} (k : string) (d : t V) : bool :=
  match get k d with Some _ => true | None => false end.

(** [d[k] = v] *)
Fixpoint set {V : Type} (k : string) (v : V) (d : t V) : t V :=
  match d with
  | [] => [(k, v)]
  | (k', v') :: d' =>
      if String.eqb k k' then (k', v) :: d' else (k', v') :: set k v d'
  end.

(** [d[k]] *)
Definition getitem {V : Type} (k : string) (d : t V) : result V :=
  match get k d with
  | Some v => Ok v
  | None => Raise (KeyError k)
  end.

(** [{**a, **b}]: a copy of [a] updated with the items of [b] in order. *)
Definition union {V : Type} (a b : t V) : t V :=
  fold_left (fun acc kv => set (fst kv) (snd kv) acc) b a.

(** The keys of a Python dictionary are pairwise distinct. *)
Definition wf {V : Type} (d : t V) : Prop := NoDup (keys d).

End Dict.

(** ** JSON values as Python objects *)

Inductive value : Type :=
| VNone
| VBool (b : bool)
| VNum (n : Z)
| VStr (s : string)
| VList (l : list value)
| VDict (d : list (string * value)).

Definition record : Type := Dict.t value.

(** Truth value of an object, as tested by [if item]. *)
Definition truthy (v : value) : bool :=
  match v with
  | VNone => false
  | VBool b => b
  | VNum n => negb (Z.eqb n 0)
  | VStr s => negb (String.eqb s "")
  | VList l => match l with [] => false | _ => true end
  | VDict d => match d with [] => false | _ => true end
  end.

(** ** Regular expressions

    The fragment of Python's [re] syntax that the program uses, with the
    semantics of the backtracking engine: alternatives are tried from left
    to right, a star is greedy, and the first way to complete the match
    wins. *)

Module Re.

Inductive regex : Type :=
| Eps
| Chr (p : ascii -> bool)        (* one character: a literal, a class, [\d], [.] *)
| Seq (r1 r2 : regex)
| Alt (r1 r2 : regex)            (* [r1|r2] *)
| Star (p : ascii -> bool)       (* [c*] for a one-character pattern [c], greedy *)
| Group (r : regex)              (* [(r)] *)
| Behind (p : ascii -> bool)     (* [(?<=c)] for a one-character pattern [c] *)
| Ahead (r : regex)              (* [(?=r)] *)
| Eol.                           (* [$] without MULTILINE *)

Definition newline : ascii := "010"%char.

Definition lit (c : ascii) : ascii -> bool := fun x => Ascii.eqb x c.

Definition in_range (lo hi : ascii) : ascii -> bool :=
  fun x => Nat.leb (nat_of_ascii lo) (nat_of_ascii x)
           && Nat.leb (nat_of_ascii x) (nat_of_ascii hi).

(** [\d] *)
Definition digit : ascii -> bool := in_range "0" "9".

(** [.] without DOTALL *)
Definition dot : ascii -> bool := fun x => negb (Ascii.eqb x newline).

Definition lower (c : ascii) : ascii :=
  if in_range "A" "Z" c then ascii_of_nat (nat_of_ascii c + 32) else c.

(** A literal under IGNORECASE. *)
Definition lit_nocase (c : ascii) : ascii -> bool :=
  fun x => Ascii.eqb (lower x) (lower c).

(** A literal string. *)
Fixpoint lits (s : string) : regex :=
  match s with
  | EmptyString => Eps
  | String c s' => Seq (Chr (lit c)) (lits s')
  end.

(** A position in the subject: the character before it, the text after
    it, and the groups closed so far (in closing order). *)
Record found : Type := mkFound
  { f_prev : option ascii; f_rest : string; f_groups : list string }.

Definition cont : Type := option ascii -> string -> list string -> option found.

(** The text between two positions of one subject, given the text after
    each. *)
Definition consumed (before after : string) : string :=
  substring 0 (String.length before - String.length after) before.

Fixpoint star (p : ascii -> bool) (prev : option ascii) (suf : string)
         (k : option ascii -> string -> option found) : option found :=
  match suf with
  | String c suf' =>
      if p c then
        match star p (Some c) suf' k with
        | Some m => Some m
        | None => k prev suf
        end
      else k prev suf
  | EmptyString => k prev suf
  end.

Fixpoint run (r : regex) (prev : option ascii) (suf : string)
         (gs : list string) (k : cont) : option found :=
  match r with
  | Eps => k prev suf gs
  | Chr p =>
      match suf with
      | String c suf' => if p c then k (Some c) suf' gs else None
      | EmptyString => None
      end
  | Seq r1 r2 =>
      run r1 prev suf gs (fun prev' suf' gs' => run r2 prev' suf' gs' k)
  | Alt r1 r2 =>
      match run r1 prev suf gs k with
      | Some m => Some m
      | None => run r2 prev suf gs k
      end
  | Star p => star p prev suf (fun prev' suf' => k prev' suf' gs)
  | Group r1 =>
      run r1 prev suf gs
          (fun prev' suf' gs' => k prev' suf' (gs' ++ [consumed suf suf']))
  | Behind p =>
      match prev with
      | Some c => if p c then k prev suf gs else None
      | None => None
      end
  | Ahead r1 =>
      match run r1 prev suf gs (fun p' s' gs' => Some (mkFound p' s' gs')) with
      | Some m => k prev suf (f_groups m)
      | None => None
      end
  | Eol =>
      match suf with
      | EmptyString => k prev suf gs
      | String c EmptyString =>
          if Ascii.eqb c newline then k prev suf gs else None
      | _ => None
      end
  end.

(** One attempt at one position.  [must_advance] refuses an empty match,
    as the engine does right after an empty match at the same place. *)
Definition match_at (r : regex) (must_advance : bool)
           (prev : option ascii) (suf : string) : option found :=
  run r prev suf []
      (fun prev' suf' gs' =>
         if must_advance && Nat.eqb (String.length suf') (String.length suf)
         then None else Some (mkFound prev' suf' gs')).

(** [pattern.search]: the leftmost position with a match, and the match
    found there; the result carries the text from the start of the
    match. *)
Fixpoint search (r : regex) (must_advance : bool)
         (prev : option ascii) (suf : string) : option (string * found) :=
  match match_at r must_advance prev suf with
  | Some m => Some (suf, m)
  | None =>
      match suf with
      | EmptyString => None
      | String c suf' => search r false (Some c) suf'
      end
  end.

(** [re.search(r, s)] as a truth value. *)
Definition re_search (r : regex) (s : string) : bool :=
  match search r false None s with Some _ => true | None => false end.

Fixpoint findall_loop (fuel : nat) (r : regex) (must_advance : bool)
         (prev : option ascii) (suf : string) : list string :=
  match fuel with
  | O => []
  | S fuel' =>
      match search r must_advance prev suf with
      | None => []
      | Some (from, m) =>
          hd "" (f_groups m)
          :: findall_loop fuel' r
               (Nat.eqb (String.length (f_rest m)) (String.length from))
               (f_prev m) (f_rest m)
      end
  end.

(** What is left for the loop of [findall] to do: the text not yet
    scanned, and whether an empty match is still allowed where it stands. *)
Definition weight (must_advance : bool) (suf : string) : nat :=
  2 * String.length suf + (if must_advance then 0 else 1).

(** [re.findall(r, s)] for a pattern with one group: the text of the
    group in each of the successive non-overlapping matches.  Every two
    rounds of the loop move at least one character forward. *)
Definition findall (r : regex) (s : string) : list string :=
  findall_loop (2 * String.length s + 2) r false None s.

End Re.

(** ** [datetime]: parsing with a format, and ISO output *)

Module Datetime.
Import Re.

Record datetime : Type := mkDatetime
  { year : nat; month : nat; day : nat;
    hour : nat; minute : nat; second : nat }.

Definition is_leap (y : nat) : bool :=
  Nat.eqb (y mod 4) 0 && (negb (Nat.eqb (y mod 100) 0) || Nat.eqb (y mod 400) 0).

Definition days_in_month (y m : nat) : nat :=
  match m with
  | 2 => if is_leap y then 29 else 28
  | 4 | 6 | 9 | 11 => 30
  | _ => 31
  end.

(** The field ranges that the [datetime] constructor enforces. *)
Definition valid (dt : datetime) : bool :=
  Nat.leb 1 (year dt) && Nat.ltb (year dt) (100 * 100)
  && Nat.leb 1 (month dt) && Nat.leb (month dt) 12
  && Nat.leb 1 (day dt) && Nat.leb (day dt) (days_in_month (year dt) (month dt))
  && Nat.ltb (hour dt) 24 && Nat.ltb (minute dt) 60 && Nat.ltb (second dt) 60.

Definition one (c : ascii) : regex := Chr (lit_nocase c).
Definition among (lo hi : ascii) : regex := Chr (in_range lo hi).
Definition d : regex := Chr digit.

(** The directives of [_strptime.TimeRE]. *)
Definition re_Y : regex := Group (Seq d (Seq d (Seq d d))).
Definition re_m_body : regex :=
  Alt (Seq (one "1") (among "0" "2"))
      (Alt (Seq (one "0") (among "1" "9")) (among "1" "9")).
Definition re_d_body : regex :=
  Alt (Seq (one "3") (among "0" "1"))
      (Alt (Seq (among "1" "2") d)
           (Alt (Seq (one "0") (among "1" "9"))
                (Alt (among "1" "9") (Seq (one " ") (among "1" "9"))))).
Definition re_H_body : regex :=
  Alt (Seq (one "2") (among "0" "3")) (Alt (Seq (among "0" "1") d) d).
Definition re_M_body : regex := Alt (Seq (among "0" "5") d) d.
Definition re_S_body : regex :=
  Alt (Seq (one "6") (among "0" "1")) (Alt (Seq (among "0" "5") d) d).

(** The pattern compiled, under IGNORECASE, from ["%Y-%m-%dT%H:%M:%SZ"]. *)
Definition format_re : regex :=
  Seq re_Y (Seq (one "-")
  (Seq (Group re_m_body) (Seq (one "-")
  (Seq (Group re_d_body) (Seq (one "T")
  (Seq (Group re_H_body) (Seq (one ":")
  (Seq (Group re_M_body) (Seq (one ":")
  (Seq (Group re_S_body) (one "Z"))))))))))).

(** [int(s)] on the text of a numeric group: decimal digits, blanks
    skipped. *)
Fixpoint int_acc (acc : nat) (s : string) : nat :=
  match s with
  | EmptyString => acc
  | String c s' =>
      if digit c then int_acc (10 * acc + (nat_of_ascii c - 48)) s'
      else int_acc acc s'
  end.
Definition int (s : string) : nat := int_acc 0 s.

(** [datetime.strptime(s, "%Y-%m-%dT%H:%M:%SZ")].  Every failure is a
    [ValueError]: the text does not match the format, text remains after
    the match, or the fields are not a date and time. *)
Definition strptime (s : string) : result datetime :=
  match match_at format_re false None s with
  | None => Raise ValueError
  | Some m =>
      match f_rest m, f_groups m with
      | EmptyString, [gY; gm; gd; gH; gM; gS] =>
          let dt := mkDatetime (int gY) (int gm) (int gd)
                               (int gH) (int gM) (int gS) in
          if valid dt then Ok dt else Raise ValueError
      | _, _ => Raise ValueError
      end
  end.

Definition digit_char (n : nat) : ascii := ascii_of_nat (48 + n).

(** ["%02d"] and ["%04d"] *)
Definition pad2 (n : nat) : string :=
  String (digit_char (n / 10 mod 10)) (String (digit_char (n mod 10)) "").
Definition pad4 (n : nat) : string :=
  String (digit_char (n / 1000 mod 10)) (String (digit_char (n / 100 mod 10))
    (pad2 n)).

(** [date.isoformat()] of a naive datetime without microseconds. *)
Definition isoformat (dt : datetime) : string :=
  pad4 (year dt) ++ "-" ++ pad2 (month dt) ++ "-" ++ pad2 (day dt) ++ "T"
  ++ pad2 (hour dt) ++ ":" ++ pad2 (minute dt) ++ ":" ++ pad2 (second dt).

End Datetime.

(** ** [helpers.py]: field normalisers *)

Import Datetime.

(** [is_datetime(item)] *)
Definition is_datetime (item : value) : result string :=
  if truthy item then
    match item with
    | VStr s =>
        date <- strptime s ;;
        if Nat.ltb 1999 (year date) then Ok (isoformat date) else Ok "Never"
    | _ => Raise TypeError   (* strptime wants a string *)
    end
  else Ok "N/A".

(** [item_to_string(item)]; only [ValueError] is caught. *)
Definition item_to_string (item : value) : result value :=
  match item with
  | VNone => Ok (VStr "N/A")
  | VBool true => Ok (VStr "Yes")
  | VBool false => Ok (VStr "No")
  | VStr _ =>
      match is_datetime item with
      | Ok s => Ok (VStr s)
      | Raise ValueError => Ok item
      | Raise e => Raise e
      end
  | _ => Ok item
  end.

(** [is_external(item)]; [re.search] wants a string. *)
Definition is_external (item : value) : result value :=
  match item with
  | VStr s => item_to_string (VBool (Re.re_search (Re.lits "#EXT#") s))
  | _ => Raise TypeError
  end.

(** The pattern of [is_external_domain]: a lookbehind for an underscore,
    one group holding a greedy run of dots, a lookahead for the marker. *)
Definition external_domain_re : Re.regex :=
  Re.Seq (Re.Behind (Re.lit "_"))
         (Re.Seq (Re.Group (Re.Star Re.dot)) (Re.Ahead (Re.lits "#EXT#"))).

(** The pattern of [get_tenant_domain]: a lookbehind for an at sign, one
    group holding a greedy run of dots, a lookahead for the end anchor. *)
Definition tenant_domain_re : Re.regex :=
  Re.Seq (Re.Behind (Re.lit "@"))
         (Re.Seq (Re.Group (Re.Star Re.dot)) (Re.Ahead Re.Eol)).

(** [is_external_domain(item)] *)
Definition is_external_domain (item : value) : result string :=
  match item with
  | VStr s =>
      match Re.findall external_domain_re s with
      | first :: _ => Ok first
      | [] => Ok "N/A"
      end
  | _ => Raise TypeError
  end.

(** [get_tenant_domain(item)] *)
Definition get_tenant_domain (item : value) : result string :=
  match item with
  | VStr s =>
      match Re.findall tenant_domain_re s with
      | first :: _ => Ok first
      | [] => Ok "N/A"
      end
  | _ => Raise TypeError
  end.

(** [v[k]] for a string [k] *)
Definition subscript (v : value) (k : string) : result value :=
  match v with
  | VDict d => Dict.getitem k d
  | _ => Raise TypeError
  end.

(** [k in v] for a string [k] *)
Definition contains (k : string) (v : value) : result bool :=
  match v with
  | VDict d => Ok (Dict.mem k d)
  | VList l =>
      Ok (existsb (fun x => match x with VStr s => String.eqb s k | _ => false end) l)
  | VStr s => Ok (Re.re_search (Re.lits k) s)
  | _ => Raise TypeError
  end.

(** [v[k] = x] for a string [k] *)
Definition setitem (k : string) (x : value) (v : value) : result value :=
  match v with
  | VDict d => Ok (VDict (Dict.set k x d))
  | _ => Raise TypeError
  end.

(** [v[k1][k2] = x] *)
Definition setitem_in (k1 k2 : string) (x : value) (v : value) : result value :=
  inner <- subscript v k1 ;;
  inner' <- setitem k2 x inner ;;
  setitem k1 inner' v.

Fixpoint chars (s : string) : list string :=
  match s with
  | EmptyString => []
  | String c s' => String c "" :: chars s'
  end.

Section Report.

(** The order in which a [set] built from the given strings is iterated;
    it depends on the hash seed of the interpreter. *)
Variable set_order : list string -> list string.

(** [get_mfa_methods(item)] *)
Definition get_mfa_methods (item : value) : result string :=
  if truthy item then
    match item with
    | VList l =>
        names <- comprehension
                   (fun x => match x with VStr s => Ok s | _ => Raise TypeError end)
                   l ;;
        Ok (String.concat "," (set_order names))
    | VStr s => Ok (String.concat "," (set_order (chars s)))
    | VDict d => Ok (String.concat "," (set_order (Dict.keys d)))
    | _ => Raise TypeError   (* not iterable *)
    end
  else Ok "No AAD MFA configured".

(** One element of the comprehension of [xlsx_dict_prep]: the keys and
    values of the dictionary display, evaluated in order. *)
Definition xlsx_row (x : record) : result record :=
  userId <- Dict.getitem "id" x ;;
  accountEnabled <- Dict.getitem "accountEnabled" x ;;
  isEnabled <- item_to_string accountEnabled ;;
  userDisplayName <- Dict.getitem "userDisplayName" x ;;
  userPrincipalName <- Dict.getitem "userPrincipalName" x ;;
  upn1 <- Dict.getitem "userPrincipalName" x ;;
  isExternal <- is_external upn1 ;;
  upn2 <- Dict.getitem "userPrincipalName" x ;;
  externalDomain <- is_external_domain upn2 ;;
  state <- Dict.getitem "externalUserState" x ;;
  externalUserState <- item_to_string state ;;
  changed <- Dict.getitem "externalUserStateChangeDateTime" x ;;
  externalUserStateLastChangeUTC <- item_to_string changed ;;
  upn3 <- Dict.getitem "userPrincipalName" x ;;
  tenantDomain <- get_tenant_domain upn3 ;;
  methods <- Dict.getitem "methodsRegistered" x ;;
  methodsRegistered <- get_mfa_methods methods ;;
  sync <- Dict.getitem "onPremisesSyncEnabled" x ;;
  onPremisesSyncEnabled <- item_to_string sync ;;
  activity1 <- Dict.getitem "signInActivity" x ;;
  lastSignIn <- subscript activity1 "lastSignInDateTime" ;;
  lastInteractiveSignInUTC <- is_datetime lastSignIn ;;
  activity2 <- Dict.getitem "signInActivity" x ;;
  lastNonInteractive <- subscript activity2 "lastNonInteractiveSignInDateTime" ;;
  lastNonInteractiveSignInUTC <- is_datetime lastNonInteractive ;;
  Ok [ ("userId", userId);
       ("isEnabled", isEnabled);
       ("userDisplayName", userDisplayName);
       ("userPrincipalName", userPrincipalName);
       ("isExternal", isExternal);
       ("externalDomain", VStr externalDomain);
       ("externalUserState", externalUserState);
       ("externalUserStateLastChangeUTC", externalUserStateLastChangeUTC);
       ("tenantDomain", VStr tenantDomain);
       ("methodsRegistered", VStr methodsRegistered);
       ("onPremisesSyncEnabled", onPremisesSyncEnabled);
       ("lastInteractiveSignInUTC", VStr lastInteractiveSignInUTC);
       ("lastNonInteractiveSignInUTC", VStr lastNonInteractiveSignInUTC) ].

(** [xlsx_dict_prep(data)] *)
Definition xlsx_dict_prep (data : list record) : result (list record) :=
  comprehension xlsx_row data.

End Report.

(** ** [helpers.py]: the concurrent fetch *)

Section Fetch.

(** The remote service: the decoded JSON body that a GET of the given URL
    with the given [$select] parameter yields, or the exception that the
    request or the decoding raises. *)
Variable session_get_json : string -> string -> result value.

(** [except Exception as e: raise Exception(e) from e] *)
Definition reraise {A : Type} (m : result A) : result A :=
  match m with
  | Ok a => Ok a
  | Raise e => Raise (Exception e)
  end.

(** What [get_url] does to a decoded response. *)
Definition fill_defaults (user_id : string) (response : value) : result value :=
  has_id <- contains "id" response ;;
  response <- (if has_id then Ok response
               else setitem "id" (VStr user_id) response) ;;
  has_activity <- contains "signInActivity" response ;;
  if has_activity then Ok response
  else
    response <- setitem "signInActivity" (VDict []) response ;;
    response <- setitem_in "signInActivity" "lastSignInDateTime" VNone response ;;
    setitem_in "signInActivity" "lastNonInteractiveSignInDateTime" VNone response.

(** [get_url(url, user_id, headers, session, params)] *)
Definition get_url (url user_id select : string) : result value :=
  reraise (response <- session_get_json url select ;;
           fill_defaults user_id response).

(** [get_aad_users(headers, endpoint, user_ids, query_select, api_version)].
    [asyncio.gather] returns the results in the order of the requests;
    of several failing requests the leftmost is reported here. *)
Definition get_aad_users (endpoint : string) (user_ids : list string)
           (query_select : list string) (api_version : string)
  : result (list value) :=
  comprehension
    (fun user_id =>
       get_url (endpoint ++ "/" ++ api_version ++ "/users/" ++ user_id)
               user_id (String.concat "," query_select))
    user_ids.

End Fetch.

(** ** [main.py]: the merge *)

(** [[{**auth_user_details[user_id], **aad_users_details[user_id]}
      for user_id in auth_user_details.keys()]] *)
Definition user_details_merged (auth_user_details aad_users_details : Dict.t record)
  : result (list record) :=
  comprehension
    (fun user_id =>
       a <- Dict.getitem user_id auth_user_details ;;
       b <- Dict.getitem user_id aad_users_details ;;
       Ok (Dict.union a b))
    (Dict.keys auth_user_details).

(** ** Vocabulary of the specification *)

(** A string is a well-formed timestamp when the format accepts it. *)
Definition well_formed (s : string) : Prop := exists dt, strptime s = Ok dt.

(** The display rule as the specification words it: absent, booleans,
    strings that parse as a timestamp, and everything else unchanged. *)
Definition toDisplayString (item : value) : result value :=
  match item with
  | VNone => Ok (VStr "N/A")
  | VBool true => Ok (VStr "Yes")
  | VBool false => Ok (VStr "No")
  | VStr s =>
      match strptime s with
      | Ok _ => r <- is_datetime item ;; Ok (VStr r)
      | Raise _ => Ok item
      end
  | _ => Ok item
  end.

(** The text after the first, and after the last, occurrence of a
    character. *)
Fixpoint after_first (c : ascii) (s : string) : option string :=
  match s with
  | EmptyString => None
  | String x s' => if Ascii.eqb x c then Some s' else after_first c s'
  end.

Fixpoint after_last (c : ascii) (s : string) : option string :=
  match s with
  | EmptyString => None
  | String x s' =>
      match after_last c s' with
      | Some t => Some t
      | None => if Ascii.eqb x c then Some s' else None
      end
  end.

(** The character before the position at the end of [s], when [prev] is the
    one before its start. *)
Fixpoint last_prev (prev : option ascii) (s : string) : option ascii :=
  match s with
  | EmptyString => prev
  | String c s' => last_prev (Some c) s'
  end.

(** No line break occurs in the string. *)
Fixpoint one_line (s : string) : bool :=
  match s with
  | EmptyString => true
  | String x s' => Re.dot x && one_line s'
  end.

(** The sub-structure that [get_url] injects. *)
Definition absent_activity : value :=
  VDict [ ("lastSignInDateTime", VNone);
          ("lastNonInteractiveSignInDateTime", VNone) ].

(** The dictionary that [get_url] returns for a JSON object: the two
    defaults, each filled in when its key is missing. *)
Definition filled (user_id : string) (d : record) : record :=
  let d1 := if Dict.mem "id" d then d else Dict.set "id" (VStr user_id) d in
  if Dict.mem "signInActivity" d1 then d1
  else Dict.set "signInActivity" absent_activity d1.

(** The result carries the given user id. *)
Definition has_id (user_id : string) (r : value) : bool :=
  match subscript r "id" with
  | Ok (VStr s) => String.eqb s user_id
  | _ => false
  end.

(** The response is a JSON object that either omits its id or echoes the
    requested one. *)
Definition echoes (user_id : string) (raw : value) : Prop :=
  exists d, raw = VDict d
            /\ (Dict.get "id" d = None \/ Dict.get "id" d = Some (VStr user_id)).

(** A service that answers for two users: the first response omits the
    id, the second omits the sign-in activity. *)
Definition example_session (url select : string) : result value :=
  if String.eqb url "https://graph.microsoft.com/beta/users/u1" then
    Ok (VDict [ ("accountEnabled", VBool true);
                ("signInActivity",
                 VDict [ ("lastSignInDateTime", VStr "2023-05-01T12:00:00Z");
                         ("lastNonInteractiveSignInDateTime", VNone) ]) ])
  else if String.eqb url "https://graph.microsoft.com/beta/users/u2" then
    Ok (VDict [ ("id", VStr "u2"); ("accountEnabled", VBool false) ])
  else Raise ValueError.

(** A merged record of a guest user who never signed in. *)
Definition example_record : record :=
  [ ("id", VStr "u1");
    ("userDisplayName", VStr "John");
    ("userPrincipalName", VStr "john_contoso.com#EXT#@tenant.onmicrosoft.com");
    ("methodsRegistered", VList [VStr "sms"; VStr "push"]);
    ("accountEnabled", VBool true);
    ("onPremisesSyncEnabled", VNone);
    ("externalUserState", VStr "Accepted");
    ("externalUserStateChangeDateTime", VStr "2023-05-01T12:00:00Z");
    ("signInActivity", absent_activity) ].

Definition report_columns : list string :=
  [ "userId"; "isEnabled"; "userDisplayName"; "userPrincipalName";
    "isExternal"; "externalDomain"; "externalUserState";
    "externalUserStateLastChangeUTC"; "tenantDomain"; "methodsRegistered";
    "onPremisesSyncEnabled"; "lastInteractiveSignInUTC";
    "lastNonInteractiveSignInUTC" ].

(** The fields of a merged record that the row builder reads. *)
Definition source_fields : list string :=
  [ "id"; "accountEnabled"; "userDisplayName"; "userPrincipalName";
    "externalUserState"; "externalUserStateChangeDateTime";
    "methodsRegistered"; "onPremisesSyncEnabled"; "signInActivity" ].




(** A service that answers every request with the record of another
    user. *)
Definition misdirected_session (url select : string) : result value :=
  Ok (VDict [ ("id", VStr "u9"); ("accountEnabled", VBool true) ]).

(** A merged record whose display name is null. *)
Definition nameless_record : record :=
  [ ("id", VStr "u1");
    ("userDisplayName", VNone);
    ("userPrincipalName", VStr "jane@tenant.onmicrosoft.com");
    ("methodsRegistered", VNone);
    ("accountEnabled", VBool true);
    ("onPremisesSyncEnabled", VNone);
    ("externalUserState", VNone);
    ("externalUserStateChangeDateTime", VNone);
    ("signInActivity", absent_activity) ].

(** The field normalisers, each as a function from a source field to a
    cell. *)
Definition normalisers (set_order : list string -> list string)
  : list (value -> result value) :=
  [ item_to_string;
    (fun v => s <- is_datetime v ;; Ok (VStr s));
    is_external;
    (fun v => s <- is_external_domain v ;; Ok (VStr s));
    (fun v => s <- get_tenant_domain v ;; Ok (VStr s));
    (fun v => s <- get_mfa_methods set_order v ;; Ok (VStr s)) ].

(** The row of a merged record: the thirteen columns in order, three of
    them copies of source fields, the others the normaliser of the column
    applied to its source field. *)
Definition row_cells (set_order : list string -> list string)
           (x row : record) : Prop :=
  Dict.keys row = report_columns
  /\ Dict.getitem "userId" row = Dict.getitem "id" x
  /\ Dict.getitem "isEnabled" row
     = (v <- Dict.getitem "accountEnabled" x ;; item_to_string v)
  /\ Dict.getitem "userDisplayName" row = Dict.getitem "userDisplayName" x
  /\ Dict.getitem "userPrincipalName" row = Dict.getitem "userPrincipalName" x
  /\ Dict.getitem "isExternal" row
     = (v <- Dict.getitem "userPrincipalName" x ;; is_external v)
  /\ Dict.getitem "externalDomain" row
     = (v <- Dict.getitem "userPrincipalName" x ;;
        s <- is_external_domain v ;; Ok (VStr s))
  /\ Dict.getitem "externalUserState" row
     = (v <- Dict.getitem "externalUserState" x ;; item_to_string v)
  /\ Dict.getitem "externalUserStateLastChangeUTC" row
     = (v <- Dict.getitem "externalUserStateChangeDateTime" x ;;
        item_to_string v)
  /\ Dict.getitem "tenantDomain" row
     = (v <- Dict.getitem "userPrincipalName" x ;;
        s <- get_tenant_domain v ;; Ok (VStr s))
  /\ Dict.getitem "methodsRegistered" row
     = (v <- Dict.getitem "methodsRegistered" x ;;
        s <- get_mfa_methods set_order v ;; Ok (VStr s))
  /\ Dict.getitem "onPremisesSyncEnabled" row
     = (v <- Dict.getitem "onPremisesSyncEnabled" x ;; item_to_string v)
  /\ Dict.getitem "lastInteractiveSignInUTC" row
     = (a <- Dict.getitem "signInActivity" x ;;
        v <- subscript a "lastSignInDateTime" ;;
        s <- is_datetime v ;; Ok (VStr s))
  /\ Dict.getitem "lastNonInteractiveSignInUTC" row
     = (a <- Dict.getitem "signInActivity" x ;;
        v <- subscript a "lastNonInteractiveSignInDateTime" ;;
        s <- is_datetime v ;; Ok (VStr s)).

(** ** Vocabulary of the further properties *)

(** The text [m] occurs in [s]. *)
Definition occurs (m s : string) : Prop := exists a b, s = (a ++ m ++ b)%string.

(** A timestamp field that the timestamp rule accepts: null, empty, or
    well-formed. *)
Definition timestamp_ready (v : value) : Prop :=
  v = VNone \/ exists s, v = VStr s /\ (s = ""%string \/ well_formed s).

(** A methods field that the summary accepts: null, or a list of
    strings. *)
Definition methods_ready (v : value) : Prop :=
  v = VNone \/ exists names, v = VList (map VStr names).

(** ** [helpers.py]: the two synchronous requests and the certificate store

    These functions raise exceptions that the normalisers never raise:
    they are collected in [raised], next to the ones above. *)

Inductive raised : Type :=
| Builtin (e : exn)
| IndexError
| KeyErrorOf (key : value)              (* a key that is not a string *)
| FileNotFoundError (path : string)
| ExceptionOf (payload : value)         (* [Exception(response)] *)
| ExceptionFrom (cause : raised).       (* [raise Exception(e) from e] *)

Inductive outcome (A : Type) : Type :=
| Returns (a : A)
| Raises (e : raised).
Arguments Returns {A} a.
Arguments Raises {A} e.

Definition and_then {A B : Type} (m : outcome A) (f : A -> outcome B) : outcome B :=
  match m with
  | Returns a => f a
  | Raises e => Raises e
  end.

Notation "x <~ m ;; k" := (and_then m (fun x => k))
  (at level 61, m at next level, right associativity).

Definition lift {A : Type} (m : result A) : outcome A :=
  match m with
  | Ok a => Returns a
  | Raise e => Raises (Builtin e)
  end.

(** [except Exception as e: raise Exception(e) from e] *)
Definition rewrap {A : Type} (m : outcome A) : outcome A :=
  match m with
  | Returns a => Returns a
  | Raises e => Raises (ExceptionFrom e)
  end.

(** [v[0]] *)
Definition first_item (v : value) : outcome value :=
  match v with
  | VList (x :: _) => Returns x
  | VList [] => Raises IndexError
  | VStr (String c _) => Returns (VStr (String c ""))
  | VStr EmptyString => Raises IndexError
  | VDict _ => Raises (KeyErrorOf (VNum 0))   (* the keys of a JSON object are strings *)
  | _ => Raises (Builtin TypeError)
  end.

Section Requests.

(** [requests.get(url, params=params, ...).json()]: the decoded body, or
    the exception of the request or of the decoding.  A response object
    always has the attribute [json]. *)
Variable requests_get_json : string -> list (string * string) -> result value.

(** [get_tenant(headers)] *)
Definition get_tenant : outcome value :=
  rewrap (response <~ lift (requests_get_json
                              "https://graph.microsoft.com/v1.0/organization" []) ;;
          organizations <~ lift (subscript response "value") ;;
          first_item organizations).

(** [get_auth_user_details(headers, endpoint, api_version)] *)
Definition get_auth_user_details (endpoint api_version : string) : outcome value :=
  rewrap (response <~ lift (requests_get_json
                              (endpoint ++ "/myorganization/activities/authenticationMethodUserDetails")
                              [("api-version", api_version)]) ;;
          has_value <~ lift (contains "value" response) ;;
          if has_value then lift (subscript response "value")
          else Raises (ExceptionOf response)).

End Requests.

(** A store of regular files: the content of each path that exists. *)
Definition files : Type := string -> option string.

(** [os.path.isfile(path)] *)
Definition isfile (path : string) (fs : files) : bool :=
  match fs path with Some _ => true | None => false end.

Definition write_file (path content : string) (fs : files) : files :=
  fun p => if String.eqb p path then Some content else fs p.

(** [shutil.copyfile(src, dst)] between two different paths *)
Definition copyfile (src dst : string) (fs : files) : outcome files :=
  match fs src with
  | Some content => Returns (write_file dst content fs)
  | None => Raises (FileNotFoundError src)
  end.

(** [open(path, "rb").read()] *)
Definition read_bytes (path : string) (fs : files) : outcome string :=
  match fs path with
  | Some content => Returns content
  | None => Raises (FileNotFoundError path)
  end.

(** [with open(path, "ab") as f: f.write(data)] *)
Definition append_bytes (path data : string) (fs : files) : files :=
  write_file path (match fs path with
                   | Some content => (content ++ data)%string
                   | None => data
                   end) fs.

(** [handle_custom_ssl()], with the path that [certifi.where()] returns;
    the file store is passed through. *)
Definition handle_custom_ssl (certifi_ca_file : string) (fs : files) : outcome files :=
  let certifi_ca_file_original := (certifi_ca_file ++ ".orig")%string in
  fs <~ (if isfile certifi_ca_file_original fs
         then copyfile certifi_ca_file_original certifi_ca_file fs
         else copyfile certifi_ca_file certifi_ca_file_original fs) ;;
  let custom_ca_file := "certificate.pem"%string in
  if isfile custom_ca_file fs then
    custom_ca_file_bytes <~ read_bytes custom_ca_file fs ;;
    Returns (append_bytes certifi_ca_file custom_ca_file_bytes fs)
  else Returns fs.

(** A store with a certificate bundle and a custom certificate. *)
Definition example_files : files :=
  fun p => if String.eqb p "/venv/cacert.pem" then Some "BUNDLE"%string
           else if String.eqb p "certificate.pem" then Some "CUSTOM"%string
           else None.

(** * Properties *)

Open Scope string_scope.

(** ** Strings *)

Lemma string_length_app (a b : string) :
  String.length (a ++ b) = String.length a + String.length b.
Proof. induction a as [|c a IH]; simpl; [reflexivity | now rewrite IH]. Qed.

Lemma string_app_assoc (a b c : string) : (a ++ b) ++ c = a ++ (b ++ c).
Proof. induction a as [|x a IH]; simpl; [reflexivity | now rewrite IH]. Qed.

Lemma substring_app (a b : string) : substring 0 (String.length a) (a ++ b) = a.
Proof.
  induction a as [|c a IH]; simpl.
  - destruct b; reflexivity.
  - now rewrite IH.
Qed.

Lemma substring_all (a : string) : substring 0 (String.length a) a = a.
Proof. induction a as [|c a IH]; simpl; [reflexivity | now rewrite IH]. Qed.

(** ** The matcher on the timestamp format *)

Module DatetimeFacts.
Import Re.

Lemma consumed_app (a rest : string) : consumed (a ++ rest) rest = a.
Proof.
  unfold consumed. rewrite string_length_app.
  replace (String.length a + String.length rest - String.length rest)
    with (String.length a) by lia.
  apply substring_app.
Qed.

Lemma nat_of_digit_char (n : nat) :
  n < 10 -> nat_of_ascii (digit_char n) = 48 + n.
Proof. intros H. unfold digit_char. apply nat_ascii_embedding. lia. Qed.

Lemma digit_digit_char (n : nat) : n < 10 -> digit (digit_char n) = true.
Proof.
  intros H. unfold digit, in_range. rewrite (nat_of_digit_char n H).
  change (nat_of_ascii "0") with 48. change (nat_of_ascii "9") with 57.
  apply andb_true_iff; split; apply Nat.leb_le; lia.
Qed.

Lemma run_Seq (r1 r2 : regex) (prev : option ascii) (suf : string)
      (gs : list string) (k : cont) :
  run (Seq r1 r2) prev suf gs k
  = run r1 prev suf gs (fun prev' suf' gs' => run r2 prev' suf' gs' k).
Proof. reflexivity. Qed.

Lemma run_Group (r : regex) (prev : option ascii) (suf : string)
      (gs : list string) (k : cont) :
  run (Group r) prev suf gs k
  = run r prev suf gs
        (fun prev' suf' gs' => k prev' suf' (gs' ++ [consumed suf suf'])%list).
Proof. reflexivity. Qed.

Lemma run_one (c : ascii) (prev : option ascii) (rest : string)
      (gs : list string) (k : cont) :
  run (one c) prev (String c rest) gs k = k (Some c) rest gs.
Proof. unfold one, lit_nocase. cbn [run]. now rewrite Ascii.eqb_refl. Qed.

Lemma run_digit (n : nat) (prev : option ascii) (rest : string)
      (gs : list string) (k : cont) :
  n < 10 ->
  run d prev (String (digit_char n) rest) gs k = k (Some (digit_char n)) rest gs.
Proof. intros Hn. unfold d. cbn [run]. now rewrite digit_digit_char. Qed.

(** Case analysis on a number below a bound. *)
Ltac enum v bound :=
  lazymatch bound with
  | O => idtac
  | S ?b => let w := fresh "w" in destruct v as [|w]; [ | enum w b ]
  end.

(** On two digits of a value in range, the first alternative of a field
    that matches takes both digits. *)
Ltac field_by_cases v bound Hk :=
  enum v bound; try lia; cbv in Hk |- *; rewrite Hk; reflexivity.

Lemma run_Y (y : nat) (prev : option ascii) (rest : string)
      (gs : list string) (k : cont) :
  run re_Y prev (pad4 y ++ rest) gs k
  = k (Some (digit_char (y mod 10))) rest (gs ++ [pad4 y])%list.
Proof.
  unfold re_Y. cbn [run].
  rewrite <- (consumed_app (pad4 y) rest) at 2.
  unfold pad4, pad2. cbn [append].
  do 4 (rewrite run_digit by (apply Nat.mod_upper_bound; lia)).
  reflexivity.
Qed.

Lemma run_m (v : nat) (prev : option ascii) (rest : string)
      (gs : list string) (k : cont) (m : found) :
  1 <= v <= 12 ->
  k (Some (digit_char (v mod 10))) rest gs = Some m ->
  run re_m_body prev (pad2 v ++ rest) gs k = Some m.
Proof. intros Hv Hk. field_by_cases v 13 Hk. Qed.

Lemma run_d (v : nat) (prev : option ascii) (rest : string)
      (gs : list string) (k : cont) (m : found) :
  1 <= v <= 31 ->
  k (Some (digit_char (v mod 10))) rest gs = Some m ->
  run re_d_body prev (pad2 v ++ rest) gs k = Some m.
Proof. intros Hv Hk. field_by_cases v 32 Hk. Qed.

Lemma run_H (v : nat) (prev : option ascii) (rest : string)
      (gs : list string) (k : cont) (m : found) :
  v < 24 ->
  k (Some (digit_char (v mod 10))) rest gs = Some m ->
  run re_H_body prev (pad2 v ++ rest) gs k = Some m.
Proof. intros Hv Hk. field_by_cases v 24 Hk. Qed.

Lemma run_M (v : nat) (prev : option ascii) (rest : string)
      (gs : list string) (k : cont) (m : found) :
  v < 60 ->
  k (Some (digit_char (v mod 10))) rest gs = Some m ->
  run re_M_body prev (pad2 v ++ rest) gs k = Some m.
Proof. intros Hv Hk. field_by_cases v 60 Hk. Qed.

Lemma run_S (v : nat) (prev : option ascii) (rest : string)
      (gs : list string) (k : cont) (m : found) :
  v < 60 ->
  k (Some (digit_char (v mod 10))) rest gs = Some m ->
  run re_S_body prev (pad2 v ++ rest) gs k = Some m.
Proof. intros Hv Hk. field_by_cases v 60 Hk. Qed.

Lemma int_pad2 (v : nat) : v < 100 -> int (pad2 v) = v.
Proof.
  intros Hv. unfold int, pad2. cbn [int_acc].
  rewrite !digit_digit_char by (apply Nat.mod_upper_bound; lia).
  rewrite !nat_of_digit_char by (apply Nat.mod_upper_bound; lia).
  rewrite (Nat.mod_small (v / 10)) by (apply Nat.Div0.div_lt_upper_bound; lia).
  pose proof (Nat.div_mod_eq v 10). lia.
Qed.

Lemma int_pad4 (y : nat) : y < 100 * 100 -> int (pad4 y) = y.
Proof.
  intros Hy. unfold int, pad4, pad2. cbn [int_acc].
  rewrite !digit_digit_char by (apply Nat.mod_upper_bound; lia).
  rewrite !nat_of_digit_char by (apply Nat.mod_upper_bound; lia).
  replace (y / 100) with (y / 10 / 10) by (rewrite Nat.Div0.div_div; reflexivity).
  replace (y / 1000) with (y / 10 / 10 / 10)
    by (rewrite !Nat.Div0.div_div; reflexivity).
  pose proof (Nat.div_mod_eq y 10).
  pose proof (Nat.div_mod_eq (y / 10) 10).
  pose proof (Nat.div_mod_eq (y / 10 / 10) 10).
  assert (y / 10 / 10 / 10 < 10)
    by (rewrite !Nat.Div0.div_div; apply Nat.Div0.div_lt_upper_bound; lia).
  rewrite (Nat.mod_small (y / 10 / 10 / 10)) by assumption.
  lia.
Qed.

Lemma valid_bounds (dt : datetime) :
  valid dt = true ->
  1 <= year dt < 100 * 100 /\ 1 <= month dt <= 12 /\ 1 <= day dt <= 31
  /\ hour dt < 24 /\ minute dt < 60 /\ second dt < 60.
Proof.
  unfold valid. rewrite !andb_true_iff, !Nat.leb_le, !Nat.ltb_lt.
  intros [[[[[[[[H1 H2] H3] H4] H5] H6] H7] H8] H9].
  assert (days_in_month (year dt) (month dt) <= 31).
  { unfold days_in_month.
    destruct (month dt) as [|[|[|[|[|[|[|[|[|[|[|[|]]]]]]]]]]]];
      try destruct (is_leap (year dt)); lia. }
  lia.
Qed.

(** The format accepts the ISO text of a valid datetime followed by [Z],
    with the six fields as its groups. *)
Lemma match_isoformat (dt : datetime) :
  valid dt = true ->
  match_at format_re false None (isoformat dt ++ "Z")
  = Some (mkFound (Some "Z"%char) ""
            [pad4 (year dt); pad2 (month dt); pad2 (day dt);
             pad2 (hour dt); pad2 (minute dt); pad2 (second dt)]).
Proof.
  intros Hv. apply valid_bounds in Hv.
  destruct Hv as (Hy & Hm & Hd & HH & HM & HS).
  unfold match_at, isoformat, format_re.
  rewrite !string_app_assoc.
  rewrite run_Seq, run_Y. cbn [append].
  rewrite run_Seq, run_one, run_Seq, run_Group.
  apply run_m; [exact Hm|]. rewrite consumed_app.
  rewrite run_Seq, run_one, run_Seq, run_Group.
  apply run_d; [exact Hd|]. rewrite consumed_app.
  rewrite run_Seq, run_one, run_Seq, run_Group.
  apply run_H; [exact HH|]. rewrite consumed_app.
  rewrite run_Seq, run_one, run_Seq, run_Group.
  apply run_M; [exact HM|]. rewrite consumed_app.
  rewrite run_Seq, run_one, run_Seq, run_Group.
  apply run_S; [exact HS|]. rewrite consumed_app.
  rewrite run_one. reflexivity.
Qed.

(** Parsing the ISO text of a valid datetime gives that datetime back. *)
Lemma strptime_isoformat (dt : datetime) :
  valid dt = true -> strptime (isoformat dt ++ "Z") = Ok dt.
Proof.
  intros Hv. unfold strptime. rewrite (match_isoformat dt Hv).
  cbn [f_rest f_groups].
  pose proof (valid_bounds dt Hv) as (Hy & Hm & Hd & HH & HM & HS).
  rewrite int_pad4 by lia. rewrite !int_pad2 by lia.
  destruct dt; cbn in *. now rewrite Hv.
Qed.

(** [strptime] raises nothing but [ValueError]. *)
Lemma strptime_raises (s : string) (e : exn) :
  strptime s = Raise e -> e = ValueError.
Proof.
  unfold strptime.
  destruct (match_at format_re false None s) as [m|]; [|congruence].
  destruct (f_rest m); [|congruence].
  destruct (f_groups m) as [|g1 [|g2 [|g3 [|g4 [|g5 [|g6 [|g7 gs]]]]]]];
    try congruence.
  destruct (valid _); congruence.
Qed.

Lemma strptime_empty : strptime "" = Raise ValueError.
Proof. reflexivity. Qed.

End DatetimeFacts.

(** ** What the timestamp format accepts *)

Module FormatFacts.
Import Re.
Import DatetimeFacts.



























End FormatFacts.

(** ** The timestamp rule and the display rule *)

Lemma truthy_nonempty (s : string) : s <> "" -> truthy (VStr s) = true.
Proof. destruct s; [congruence | reflexivity]. Qed.

Lemma well_formed_nonempty (s : string) : well_formed s -> s <> "".
Proof.
  intros [dt H] ->. rewrite DatetimeFacts.strptime_empty in H. discriminate.
Qed.

Lemma is_datetime_parsed (s : string) (dt : datetime) :
  strptime s = Ok dt ->
  is_datetime (VStr s)
  = Ok (if Nat.ltb 1999 (year dt) then isoformat dt else "Never").
Proof.
  intros H. unfold is_datetime.
  rewrite truthy_nonempty by (apply well_formed_nonempty; now exists dt).
  rewrite H. cbn [bind]. now destruct (Nat.ltb 1999 (year dt)).
Qed.

(** C2: the timestamp rule.  An absent or empty input gives "N/A"; a string
    that the format accepts gives "Never" when the parsed year is 1999 or
    earlier and the ISO text of the parsed instant otherwise; the ISO text
    of every valid instant followed by Z is accepted and parses to that
    instant; the two examples of the specification hold. *)
Theorem is_datetime_timestamp_rule :
  is_datetime VNone = Ok "N/A"
  /\ is_datetime (VStr "") = Ok "N/A"
  /\ (forall s dt, strptime s = Ok dt -> year dt <= 1999 ->
                   is_datetime (VStr s) = Ok "Never")
  /\ (forall s dt, strptime s = Ok dt -> 1999 < year dt ->
                   is_datetime (VStr s) = Ok (isoformat dt))
  /\ (forall dt, valid dt = true -> strptime (isoformat dt ++ "Z") = Ok dt)
  /\ is_datetime (VStr "1998-01-01T00:00:00Z") = Ok "Never"
  /\ is_datetime (VStr "2023-05-01T12:00:00Z") = Ok "2023-05-01T12:00:00".
Proof.
  repeat split; try reflexivity.
  - intros s dt H Hy. rewrite (is_datetime_parsed s dt H).
    destruct (Nat.ltb_spec 1999 (year dt)); [lia | reflexivity].
  - intros s dt H Hy. rewrite (is_datetime_parsed s dt H).
    destruct (Nat.ltb_spec 1999 (year dt)); [reflexivity | lia].
  - exact DatetimeFacts.strptime_isoformat.
Qed.

Lemma is_datetime_timestamp_rule_witness :
  is_datetime (VStr "1998-01-01T00:00:00Z") = Ok "Never"
  /\ is_datetime (VStr "2023-05-01T12:00:00Z")
     = Ok (isoformat (mkDatetime 2023 5 1 12 0 0))
  /\ strptime (isoformat (mkDatetime 2023 5 1 12 0 0) ++ "Z")
     = Ok (mkDatetime 2023 5 1 12 0 0).
Proof.
  destruct is_datetime_timestamp_rule as (_ & _ & Hold & Hnew & Hiso & _).
  split; [| split].
  - apply (Hold "1998-01-01T00:00:00Z" (mkDatetime 1998 1 1 0 0 0)).
    + vm_compute. reflexivity.
    + cbn [year]. lia.
  - apply (Hnew "2023-05-01T12:00:00Z" (mkDatetime 2023 5 1 12 0 0)).
    + vm_compute. reflexivity.
    + cbn [year]. lia.
  - apply (Hiso (mkDatetime 2023 5 1 12 0 0)). vm_compute. reflexivity.
Defined.




(** C8, as stated, fails on the empty string: it does not parse as a
    timestamp, yet it is not returned unchanged. *)
Lemma item_to_string_empty_not_unchanged :
  item_to_string (VStr "") <> toDisplayString (VStr "").
Proof. vm_compute. discriminate. Qed.

(** C8, amended: the display rule sends the empty string to "N/A" and is
    the rule of the specification on every other input: null to "N/A",
    true to "Yes", false to "No", a string that parses as a timestamp to
    the result of the timestamp rule, anything else unchanged. *)
Theorem item_to_string_display_rule (item : value) :
  item_to_string item
  = match item with
    | VStr EmptyString => Ok (VStr "N/A")
    | _ => toDisplayString item
    end.
Proof.
  destruct item as [| b | n | s | l | d0]; try reflexivity.
  destruct s as [|c s]; [reflexivity|].
  unfold item_to_string, toDisplayString.
  destruct (strptime (String c s)) as [dt|e] eqn:Hp.
  - rewrite (is_datetime_parsed _ dt Hp). reflexivity.
  - unfold is_datetime. cbn [truthy String.eqb negb]. rewrite Hp. cbn [bind].
    now rewrite (DatetimeFacts.strptime_raises _ e Hp).
Qed.

(** C10: on the empty string the display rule answers "N/A": the timestamp
    rule takes it for an absent value and does not raise, so the string is
    not handed back unchanged. *)
Theorem item_to_string_empty :
  is_datetime (VStr "") = Ok "N/A"
  /\ item_to_string (VStr "") = Ok (VStr "N/A")
  /\ item_to_string (VStr "") <> Ok (VStr "").
Proof. repeat split; try reflexivity. discriminate. Qed.

(** ** Domain extraction *)

Module ReFacts.
Import Re.

Lemma search_unfold (r : regex) (must_advance : bool)
      (prev : option ascii) (suf : string) :
  search r must_advance prev suf
  = match match_at r must_advance prev suf with
    | Some m => Some (suf, m)
    | None =>
        match suf with
        | EmptyString => None
        | String c suf' => search r false (Some c) suf'
        end
    end.
Proof. destruct suf; reflexivity. Qed.

(** A match hands to its continuation a position at or after the one it
    started from. *)
Lemma star_calls (p : ascii -> bool) (suf : string) :
  forall prev k m,
    star p prev suf k = Some m ->
    exists prev' suf',
      String.length suf' <= String.length suf /\ k prev' suf' = Some m.
Proof.
  induction suf as [|c suf IH]; intros prev k m H; cbn [star] in H.
  - now exists prev, "".
  - destruct (p c).
    + destruct (star p (Some c) suf k) as [m'|] eqn:E.
      * injection H as <-. destruct (IH _ _ _ E) as (p' & s' & Hl & Hk).
        exists p', s'. split; [cbn [String.length]; lia | exact Hk].
      * now exists prev, (String c suf).
    + now exists prev, (String c suf).
Qed.

Lemma run_calls (r : regex) :
  forall prev suf gs k m,
    run r prev suf gs k = Some m ->
    exists prev' suf' gs',
      String.length suf' <= String.length suf /\ k prev' suf' gs' = Some m.
Proof.
  induction r as [| p | r1 IH1 r2 IH2 | r1 IH1 r2 IH2 | p | r IH | p | r IH |];
    intros prev suf gs k m H; cbn [run] in H.
  - now exists prev, suf, gs.
  - destruct suf as [|c suf]; [discriminate|].
    destruct (p c); [|discriminate].
    exists (Some c), suf, gs. split; [cbn [String.length]; lia | exact H].
  - destruct (IH1 _ _ _ _ _ H) as (p1 & s1 & g1 & Hl1 & H1).
    destruct (IH2 _ _ _ _ _ H1) as (p2 & s2 & g2 & Hl2 & H2).
    exists p2, s2, g2. split; [lia | exact H2].
  - destruct (run r1 prev suf gs k) as [m'|] eqn:E.
    + injection H as <-. now apply IH1 in E.
    + now apply IH2 in H.
  - destruct (star_calls _ _ _ _ _ H) as (p' & s' & Hl & Hk).
    now exists p', s', gs.
  - destruct (IH _ _ _ _ _ H) as (p' & s' & g' & Hl & Hk).
    now exists p', s', (g' ++ [consumed suf s'])%list.
  - destruct prev as [c|]; [|discriminate]. destruct (p c); [|discriminate].
    now exists (Some c), suf, gs.
  - destruct (run r prev suf gs _) as [m'|]; [|discriminate].
    now exists prev, suf, (f_groups m').
  - destruct suf as [|c [|c' suf]]; try discriminate.
    + now exists prev, "", gs.
    + destruct (Ascii.eqb c newline); [|discriminate].
      now exists prev, (String c ""), gs.
Qed.

Lemma match_at_rest (r : regex) (must_advance : bool) prev suf m :
  match_at r must_advance prev suf = Some m ->
  String.length (f_rest m) <= String.length suf
  /\ (must_advance = true -> String.length (f_rest m) < String.length suf).
Proof.
  unfold match_at. intros H.
  destruct (run_calls _ _ _ _ _ _ H) as (p' & s' & g' & Hl & Hk).
  destruct must_advance; cbn [andb] in Hk.
  - destruct (Nat.eqb_spec (String.length s') (String.length suf)); [discriminate|].
    injection Hk as <-. cbn [f_rest]. split; [exact Hl | intros _; lia].
  - injection Hk as <-. cbn [f_rest]. split; [exact Hl | discriminate].
Qed.

(** Each round of [findall] lowers the weight of the loop. *)
Lemma search_progress (r : regex) (suf : string) :
  forall must_advance prev from m,
    search r must_advance prev suf = Some (from, m) ->
    weight (Nat.eqb (String.length (f_rest m)) (String.length from)) (f_rest m)
    < weight must_advance suf.
Proof.
  induction suf as [|c suf IH]; intros ma prev from m H;
    rewrite search_unfold in H.
  - destruct (match_at r ma prev "") as [m'|] eqn:E; [|discriminate].
    injection H as <- <-. destruct (match_at_rest _ _ _ _ _ E) as [Hl Hadv].
    unfold weight. destruct ma.
    + specialize (Hadv eq_refl). cbn [String.length] in *. lia.
    + rewrite (proj2 (Nat.eqb_eq _ _)) by (cbn [String.length] in *; lia).
      cbn [String.length] in *. lia.
  - destruct (match_at r ma prev (String c suf)) as [m'|] eqn:E.
    + injection H as <- <-. destruct (match_at_rest _ _ _ _ _ E) as [Hl Hadv].
      unfold weight. destruct ma.
      * specialize (Hadv eq_refl).
        destruct (Nat.eqb _ _); lia.
      * destruct (Nat.eqb_spec (String.length (f_rest m'))
                               (String.length (String c suf))); lia.
    + apply IH in H. unfold weight in *. cbn [String.length]. 
      destruct ma; lia.
Qed.

Lemma findall_loop_enough (r : regex) (n : nat) :
  forall must_advance prev suf extra,
    weight must_advance suf < n ->
    findall_loop (n + extra) r must_advance prev suf
    = findall_loop n r must_advance prev suf.
Proof.
  induction n as [|n IH]; intros ma prev suf extra Hw; [lia|].
  cbn [Nat.add findall_loop].
  destruct (search r ma prev suf) as [[from m]|] eqn:E; [|reflexivity].
  f_equal. apply IH. apply search_progress in E. lia.
Qed.

(** The fuel of [findall] never runs out: more fuel changes nothing. *)
Lemma findall_fuel (r : regex) (s : string) (extra : nat) :
  findall_loop (2 * String.length s + 2 + extra) r false None s = findall r s.
Proof.
  unfold findall. apply findall_loop_enough. unfold weight. lia.
Qed.

(** The first round of [findall] is a search from the start. *)
Lemma findall_first (r : regex) (s : string) :
  findall r s
  = match search r false None s with
    | None => []
    | Some (from, m) =>
        hd "" (f_groups m)
        :: findall_loop (2 * String.length s + 1) r
             (Nat.eqb (String.length (f_rest m)) (String.length from))
             (f_prev m) (f_rest m)
    end.
Proof.
  unfold findall.
  replace (2 * String.length s + 2) with (S (2 * String.length s + 1)) by lia.
  reflexivity.
Qed.

(** On one line a greedy run of dots that may stop at the end takes the
    whole line. *)
Lemma star_dot_line (suf : string) :
  forall (prev : option ascii) (k : option ascii -> string -> option found)
         (m : found),
    one_line suf = true ->
    k (last_prev prev suf) "" = Some m ->
    star dot prev suf k = Some m.
Proof.
  induction suf as [|c suf IH]; intros prev k m Hline Hk.
  - exact Hk.
  - cbn [one_line] in Hline. apply andb_true_iff in Hline as [Hc Hline].
    cbn [star]. rewrite Hc.
    now rewrite (IH (Some c) k m Hline Hk).
Qed.

Lemma consumed_all (s : string) : consumed s "" = s.
Proof.
  unfold consumed. cbn [String.length]. rewrite Nat.sub_0_r.
  apply substring_all.
Qed.

(** Right after an at sign the pattern of the tenant domain matches the
    rest of the line. *)
Lemma tenant_match_after_at (suf : string) :
  one_line suf = true ->
  match_at tenant_domain_re false (Some "@"%char) suf
  = Some (mkFound (last_prev (Some "@"%char) suf) "" [suf]).
Proof.
  intros Hline. unfold match_at, tenant_domain_re. cbn [run lit Ascii.eqb].
  cbn. apply star_dot_line; [exact Hline|].
  now rewrite consumed_all.
Qed.

(** Anywhere else it does not match. *)
Lemma tenant_no_match (must_advance : bool) (prev : option ascii) (suf : string) :
  match prev with Some c => Ascii.eqb c "@" = false | None => True end ->
  match_at tenant_domain_re must_advance prev suf = None.
Proof.
  intros Hprev. unfold match_at, tenant_domain_re. cbn [run].
  destruct prev as [c|]; [|reflexivity].
  unfold lit. now rewrite Hprev.
Qed.

Lemma tenant_search (s : string) :
  forall prev : option ascii,
    one_line s = true ->
    match prev with Some c => Ascii.eqb c "@" = false | None => True end ->
    search tenant_domain_re false prev s
    = match after_first "@" s with
      | Some t => Some (t, mkFound (last_prev (Some "@"%char) t) "" [t])
      | None => None
      end.
Proof.
  induction s as [|x s IH]; intros prev Hline Hprev.
  - rewrite search_unfold, tenant_no_match by exact Hprev. reflexivity.
  - rewrite search_unfold, tenant_no_match by exact Hprev.
    cbn [one_line] in Hline. apply andb_true_iff in Hline as [_ Hline].
    cbn [after_first]. destruct (Ascii.eqb x "@") eqn:Hx.
    + apply Ascii.eqb_eq in Hx. subst x.
      rewrite search_unfold, tenant_match_after_at by exact Hline.
      reflexivity.
    + apply IH; assumption.
Qed.

End ReFacts.

(** C4: a guest whose mailbox name contains an underscore.  The function
    answers with the text after the first underscore, which is not the
    domain of the guest; with a single underscore it answers with the
    domain, and without the marker with "N/A". *)
Theorem is_external_domain_underscore_in_name :
  is_external_domain (VStr "john_doe_contoso.com#EXT#@tenant.onmicrosoft.com")
  = Ok "doe_contoso.com"
  /\ is_external_domain (VStr "john_contoso.com#EXT#@tenant.onmicrosoft.com")
     = Ok "contoso.com"
  /\ is_external_domain (VStr "jane@tenant.onmicrosoft.com") = Ok "N/A".
Proof. repeat split; vm_compute; reflexivity. Qed.

(** C5, as stated, fails when the name holds two at signs: the function
    answers with the text after the first one, not after the last one. *)
Lemma get_tenant_domain_not_after_last :
  get_tenant_domain (VStr "a@b@c")
  <> Ok (match after_last "@" "a@b@c" with Some t => t | None => "N/A" end).
Proof. vm_compute. discriminate. Qed.

(** C5, amended: on a string without a line break the function answers
    with everything after the first at sign, and with "N/A" when there is
    none. *)
Theorem get_tenant_domain_after_first (s : string) :
  one_line s = true ->
  get_tenant_domain (VStr s)
  = Ok (match after_first "@" s with Some t => t | None => "N/A" end).
Proof.
  intros Hline. unfold get_tenant_domain.
  rewrite ReFacts.findall_first, (ReFacts.tenant_search s None Hline I).
  now destruct (after_first "@" s).
Qed.

Lemma get_tenant_domain_after_first_witness :
  get_tenant_domain (VStr "jane@tenant.onmicrosoft.com")
  = Ok "tenant.onmicrosoft.com".
Proof.
  apply (get_tenant_domain_after_first "jane@tenant.onmicrosoft.com").
  vm_compute. reflexivity.
Defined.

(** ** Comprehensions and dictionaries *)

Lemma comprehension_ok {A B : Type} (f : A -> result B) (l : list A) :
  (forall x, In x l -> exists y, f x = Ok y) ->
  exists ys, comprehension f l = Ok ys.
Proof.
  induction l as [|a l IH]; intros Hall.
  - now exists [].
  - destruct (Hall a (or_introl eq_refl)) as [b Hb].
    destruct IH as [ys Hys]; [intros x Hx; apply Hall; now right|].
    exists (b :: ys). cbn [comprehension]. rewrite Hb. cbn [bind].
    now rewrite Hys.
Qed.

(** A comprehension that returns has one result per element, in order. *)
Lemma comprehension_Forall2 {A B : Type} (f : A -> result B) (l : list A) :
  forall ys, comprehension f l = Ok ys -> Forall2 (fun x y => f x = Ok y) l ys.
Proof.
  induction l as [|a l IH]; intros ys H; cbn [comprehension] in H.
  - injection H as <-. constructor.
  - destruct (f a) as [b|e] eqn:Hb; cbn [bind] in H; [|discriminate].
    destruct (comprehension f l) as [bs|e]; cbn [bind] in H; [|discriminate].
    injection H as <-. constructor; [exact Hb | now apply IH].
Qed.

(** The exception of a comprehension is that of its first failing
    element. *)
Lemma comprehension_raise {A B : Type} (f : A -> result B) (l : list A) :
  (exists x, In x l /\ raises (f x)) ->
  exists x e, In x l /\ f x = Raise e /\ comprehension f l = Raise e.
Proof.
  induction l as [|a l IH]; intros (x & Hin & Hx).
  - destruct Hin.
  - cbn [comprehension]. destruct (f a) as [b|e] eqn:Ha.
    + destruct Hin as [->|Hin].
      * destruct Hx as [e He]. congruence.
      * destruct IH as (x' & e & Hin' & Hx' & Hc); [now exists x|].
        exists x', e. cbn [bind]. rewrite Hc. repeat split; auto. now right.
    + exists a, e. repeat split; auto. now left.
Qed.

Lemma Forall2_nth_error {A B : Type} (R : A -> B -> Prop)
      (l : list A) (l' : list B) :
  Forall2 R l l' ->
  forall i x, nth_error l i = Some x ->
              exists y, nth_error l' i = Some y /\ R x y.
Proof.
  induction 1 as [|a b l l' Hab Hall IH]; intros i x Hi.
  - destruct i; discriminate.
  - destruct i as [|i]; cbn [nth_error] in *.
    + injection Hi as <-. now exists b.
    + now apply IH.
Qed.

Module DictFacts.
Import Dict.

Section WithValues.
Context {V : Type}.
Implicit Types (d a b : t V) (k f : string) (v : V).

Lemma get_None k d : get k d = None <-> ~ In k (keys d).
Proof.
  induction d as [|[k' v'] d IH]; cbn [get keys map fst In].
  - tauto.
  - destruct (String.eqb_spec k k') as [->|Hne].
    + split; [discriminate | intros H; exfalso; apply H; now left].
    + fold (keys d). rewrite IH. split.
      * intros H [Heq|Hin]; [congruence | tauto].
      * tauto.
Qed.

Lemma get_Some_in k d : In k (keys d) -> exists v, get k d = Some v.
Proof.
  intros Hin. destruct (get k d) as [v|] eqn:H; [now exists v|].
  apply get_None in H. contradiction.
Qed.

Lemma get_set_same k v d : get k (set k v d) = Some v.
Proof.
  induction d as [|[k' v'] d IH]; cbn [set get].
  - now rewrite String.eqb_refl.
  - destruct (String.eqb k k') eqn:E; cbn [get]; rewrite E; auto.
Qed.

Lemma get_set_other k f v d : f <> k -> get f (set k v d) = get f d.
Proof.
  intros Hne. induction d as [|[k' v'] d IH]; cbn [set get].
  - destruct (String.eqb_spec f k); [contradiction | reflexivity].
  - destruct (String.eqb_spec k k') as [<-|Hk]; cbn [get].
    + destruct (String.eqb_spec f k); [contradiction | reflexivity].
    + now rewrite IH.
Qed.

(** Assignment overwrites in place or appends, so the keys stay
    distinct. *)
Lemma keys_set k v d :
  keys (set k v d) = if mem k d then keys d else (keys d ++ [k])%list.
Proof.
  unfold mem. induction d as [|[k' v'] d IH]; cbn [set get keys map fst].
  - reflexivity.
  - destruct (String.eqb k k'); cbn [keys map fst]; [reflexivity|].
    fold (keys (set k v d)). rewrite IH. fold (keys d).
    now destruct (get k d).
Qed.

Lemma wf_set k v d : wf d -> wf (set k v d).
Proof.
  unfold wf. intros Hd. rewrite keys_set. unfold mem.
  destruct (get k d) eqn:Hk; [exact Hd|].
  apply get_None in Hk.
  apply NoDup_app; [exact Hd | repeat constructor; intros [] |].
  intros x Hx [<-|[]]. contradiction.
Qed.

(** The field-union: a field of the second dictionary wins. *)
Lemma get_union f b :
  wf b ->
  forall a, get f (union a b)
            = match get f b with Some v => Some v | None => get f a end.
Proof.
  unfold wf, union.
  induction b as [|[k v] b IH]; intros Hb a; cbn [fold_left fst snd get].
  - reflexivity.
  - cbn [keys map fst] in Hb. apply NoDup_cons_iff in Hb as [Hk Hb].
    rewrite (IH Hb). destruct (String.eqb_spec f k) as [->|Hne].
    + apply get_None in Hk. fold (keys b) in Hk. rewrite Hk.
      apply get_set_same.
    + now rewrite get_set_other.
Qed.

Lemma wf_union a b : wf a -> wf (union a b).
Proof.
  unfold union. revert a.
  induction b as [|[k v] b IH]; intros a Ha; cbn [fold_left]; auto.
  apply IH. now apply wf_set.
Qed.

End WithValues.
End DictFacts.

(** ** The merge *)

Lemma merge_step_ok (A B : Dict.t record) (k : string) (r : record) :
  (a <- Dict.getitem k A ;; b <- Dict.getitem k B ;; Ok (Dict.union a b)) = Ok r ->
  exists a b, Dict.get k A = Some a /\ Dict.get k B = Some b /\ r = Dict.union a b.
Proof.
  unfold Dict.getitem.
  destruct (Dict.get k A) as [a|]; cbn [bind]; [|discriminate].
  destruct (Dict.get k B) as [b|]; cbn [bind]; [|discriminate].
  intros H. injection H as <-. now exists a, b.
Qed.

Lemma get_in_items {V : Type} (k : string) (d : Dict.t V) (v : V) :
  Dict.get k d = Some v -> In (k, v) d.
Proof.
  induction d as [|[k' v'] d IH]; cbn [Dict.get]; [discriminate|].
  destruct (String.eqb_spec k k') as [->|Hne].
  - intros H. injection H as <-. now left.
  - intros H. right. now apply IH.
Qed.

(** C1: the merge.  When every key of the primary mapping is a key of the
    secondary one, the merge returns one record per key of the primary
    mapping, in its order, each the union of the two records of that key
    in which a field of the secondary record wins; when some key of the
    primary mapping is missing from the secondary one, the merge raises
    [KeyError] for such a key. *)
Theorem user_details_merged_spec (A B : Dict.t record) :
  Forall (fun kv => Dict.wf (snd kv)) B ->
  ((forall k, In k (Dict.keys A) -> In k (Dict.keys B)) ->
   exists merged,
     user_details_merged A B = Ok merged
     /\ List.length merged = List.length (Dict.keys A)
     /\ forall i k, nth_error (Dict.keys A) i = Some k ->
          exists a b,
            Dict.get k A = Some a /\ Dict.get k B = Some b
            /\ nth_error merged i = Some (Dict.union a b)
            /\ forall f, Dict.get f (Dict.union a b)
                         = match Dict.get f b with
                           | Some v => Some v
                           | None => Dict.get f a
                           end)
  /\ ((exists k, In k (Dict.keys A) /\ ~ In k (Dict.keys B)) ->
      exists k, In k (Dict.keys A) /\ ~ In k (Dict.keys B)
                /\ user_details_merged A B = Raise (KeyError k)).
Proof.
  intros HwfB. split.
  - intros Hsub. unfold user_details_merged.
    destruct (comprehension_ok
                (fun user_id =>
                   a <- Dict.getitem user_id A ;;
                   b <- Dict.getitem user_id B ;; Ok (Dict.union a b))
                (Dict.keys A)) as [merged Hm].
    { intros k Hk.
      destruct (DictFacts.get_Some_in k A Hk) as [a Ha].
      destruct (DictFacts.get_Some_in k B (Hsub k Hk)) as [b Hb].
      exists (Dict.union a b). unfold Dict.getitem. now rewrite Ha, Hb. }
    exists merged. split; [exact Hm|].
    pose proof (comprehension_Forall2 _ _ _ Hm) as Hall.
    split; [symmetry; exact (Forall2_length Hall)|].
    intros i k Hi.
    destruct (Forall2_nth_error _ _ _ Hall i k Hi) as (r & Hr & Hstep).
    destruct (merge_step_ok A B k r Hstep) as (a & b & Ha & Hb & ->).
    exists a, b. repeat split; try assumption.
    intros f. apply DictFacts.get_union.
    rewrite Forall_forall in HwfB.
    exact (HwfB (k, b) (get_in_items k B b Hb)).
  - intros (k & Hk & Hmiss). unfold user_details_merged.
    destruct (comprehension_raise
                (fun user_id =>
                   a <- Dict.getitem user_id A ;;
                   b <- Dict.getitem user_id B ;; Ok (Dict.union a b))
                (Dict.keys A)) as (k' & e & Hk' & He & Hc).
    { exists k. split; [exact Hk|].
      destruct (DictFacts.get_Some_in k A Hk) as [a Ha].
      apply DictFacts.get_None in Hmiss.
      exists (KeyError k). unfold Dict.getitem. now rewrite Ha, Hmiss. }
    exists k'. split; [exact Hk'|].
    destruct (DictFacts.get_Some_in k' A Hk') as [a Ha].
    unfold Dict.getitem in He. rewrite Ha in He. cbn [bind] in He.
    destruct (Dict.get k' B) as [b|] eqn:Hb; cbn [bind] in He; [discriminate|].
    injection He as <-. split; [|exact Hc].
    now apply DictFacts.get_None.
Qed.

Lemma user_details_merged_spec_witness :
  exists merged,
    user_details_merged
      [ ("u1", [("id", VStr "u1"); ("isEnabled", VBool false)]) ]
      [ ("u1", [("isEnabled", VBool true); ("userType", VStr "Guest")]) ]
    = Ok merged
    /\ List.length merged = 1.
Proof.
  destruct (user_details_merged_spec
              [ ("u1", [("id", VStr "u1"); ("isEnabled", VBool false)]) ]
              [ ("u1", [("isEnabled", VBool true); ("userType", VStr "Guest")]) ])
    as [Hok _].
  - repeat constructor; simpl; intuition discriminate.
  - destruct Hok as (merged & Hm & Hlen & _).
    + simpl. intuition.
    + exists merged. split; [exact Hm | exact Hlen].
Defined.

(** ** The fetch *)

Module FetchFacts.
Import Dict.

Lemma set_set {V : Type} (k : string) (v v' : V) (d : t V) :
  set k v (set k v' d) = set k v d.
Proof.
  induction d as [|[k' w] d IH]; cbn [set].
  - now rewrite String.eqb_refl.
  - destruct (String.eqb k k') eqn:E; cbn [set]; rewrite E; [reflexivity|].
    now rewrite IH.
Qed.

Lemma fill_defaults_object (user_id : string) (d : record) :
  fill_defaults user_id (VDict d) = Ok (VDict (filled user_id d)).
Proof.
  unfold fill_defaults, filled. cbn [contains bind].
  destruct (mem "id" d); cbn [setitem bind contains].
  - destruct (mem "signInActivity" d); [reflexivity|].
    unfold setitem_in. cbn [subscript]. unfold getitem.
    rewrite !DictFacts.get_set_same. cbn [bind setitem subscript].
    unfold getitem. rewrite !DictFacts.get_set_same. cbn [bind setitem].
    now rewrite !set_set.
  - destruct (mem "signInActivity" (set "id" (VStr user_id) d)); [reflexivity|].
    unfold setitem_in. cbn [subscript]. unfold getitem.
    rewrite !DictFacts.get_set_same. cbn [bind setitem subscript].
    unfold getitem. rewrite !DictFacts.get_set_same. cbn [bind setitem].
    now rewrite !set_set.
Qed.

Lemma filled_id (user_id : string) (d : record) :
  get "id" (filled user_id d)
  = Some (match get "id" d with Some v => v | None => VStr user_id end).
Proof.
  unfold filled.
  set (d1 := if mem "id" d then d else set "id" (VStr user_id) d).
  assert (H1 : get "id" d1
               = Some (match get "id" d with Some v => v | None => VStr user_id end)).
  { subst d1. unfold mem.
    destruct (get "id" d) eqn:E; [exact E | apply DictFacts.get_set_same]. }
  destruct (mem "signInActivity" d1); [exact H1|].
  rewrite DictFacts.get_set_other by discriminate. exact H1.
Qed.

Lemma filled_activity (user_id : string) (d : record) :
  get "signInActivity" (filled user_id d)
  = Some (match get "signInActivity" d with
          | Some v => v
          | None => absent_activity
          end).
Proof.
  unfold filled.
  set (d1 := if mem "id" d then d else set "id" (VStr user_id) d).
  assert (H1 : get "signInActivity" d1 = get "signInActivity" d).
  { subst d1. destruct (mem "id" d); [reflexivity|].
    apply DictFacts.get_set_other. discriminate. }
  unfold mem. rewrite <- H1.
  destruct (get "signInActivity" d1) eqn:E; [exact E|].
  apply DictFacts.get_set_same.
Qed.

(** Whatever the response is, a result of [get_url] holds both keys. *)
Lemma fill_defaults_contains (user_id : string) (raw r : value) :
  fill_defaults user_id raw = Ok r ->
  contains "id" r = Ok true /\ contains "signInActivity" r = Ok true.
Proof.
  destruct raw as [| b | n | s | l | d]; try discriminate.
  - unfold fill_defaults. cbn [contains bind].
    destruct (Re.re_search (Re.lits "id") s) eqn:E1; cbn [setitem bind];
      [|discriminate].
    cbn [contains].
    destruct (Re.re_search (Re.lits "signInActivity") s) eqn:E2;
      cbn [setitem bind]; [|discriminate].
    intros H. injection H as <-. cbn [contains]. now rewrite E1, E2.
  - unfold fill_defaults. cbn [contains bind].
    destruct (existsb _ l) eqn:E1; cbn [setitem bind]; [|discriminate].
    cbn [contains].
    destruct (existsb _ l) eqn:E2 in |- *; cbn [setitem bind]; [|discriminate].
    intros H. injection H as <-. cbn [contains]. now rewrite E1, E2.
  - rewrite fill_defaults_object. intros H. injection H as <-.
    cbn [contains]. unfold mem. now rewrite filled_id, filled_activity.
Qed.

Lemma get_url_ok (session : string -> string -> result value)
      (url user_id select : string) (r : value) :
  get_url session url user_id select = Ok r ->
  exists raw, session url select = Ok raw /\ fill_defaults user_id raw = Ok r.
Proof.
  unfold get_url, reraise.
  destruct (session url select) as [raw|e]; cbn [bind]; [|discriminate].
  destruct (fill_defaults user_id raw) as [r'|e] eqn:E; [|discriminate].
  intros H. injection H as <-. now exists raw.
Qed.

Lemma no_id_no_hit (user_id : string) (ids : list string) (rs : list value) :
  Forall2 (fun u r => subscript r "id" = Ok (VStr u)) ids rs ->
  ~ In user_id ids -> filter (has_id user_id) rs = [].
Proof.
  induction 1 as [|u r ids rs Hr Hall IH]; intros Hnot; [reflexivity|].
  cbn [filter]. unfold has_id at 1. rewrite Hr.
  destruct (String.eqb_spec u user_id) as [->|Hne].
  - exfalso. apply Hnot. now left.
  - apply IH. intros Hin. apply Hnot. now right.
Qed.

Lemma one_hit (user_id : string) (ids : list string) (rs : list value) :
  Forall2 (fun u r => subscript r "id" = Ok (VStr u)) ids rs ->
  NoDup ids -> In user_id ids ->
  List.length (filter (has_id user_id) rs) = 1.
Proof.
  induction 1 as [|u r ids rs Hr Hall IH]; intros Hnd Hin; [destruct Hin|].
  apply NoDup_cons_iff in Hnd as [Hu Hnd].
  cbn [filter]. unfold has_id at 1. rewrite Hr.
  destruct (String.eqb_spec u user_id) as [->|Hne].
  - now rewrite (no_id_no_hit user_id ids rs Hall Hu).
  - destruct Hin as [->|Hin]; [contradiction|]. now apply IH.
Qed.

Lemma Forall2_impl_in {A B : Type} (R Q : A -> B -> Prop)
      (l : list A) (l' : list B) :
  Forall2 R l l' ->
  (forall x y, In x l -> R x y -> Q x y) ->
  Forall2 Q l l'.
Proof.
  induction 1 as [|a b l l' Hab Hall IH]; intros Himp; constructor.
  - apply Himp; [now left | exact Hab].
  - apply IH. intros x y Hx. apply Himp. now right.
Qed.

End FetchFacts.

(** C6: the fetcher.  A fetch that returns gives one result per input id,
    in the order of the ids; each result is the response of the request
    for that id and holds an id and a sign-in activity; for a JSON object
    the id is that of the response, or the requested id when the response
    has none, and the sign-in activity is that of the response, or the one
    with both timestamps null when the response has none.  When the ids
    are distinct and the service answers with objects that omit the id or
    echo it, every input id is the id of exactly one result. *)
Theorem get_aad_users_results (session : string -> string -> result value)
        (endpoint : string) (user_ids query_select : list string)
        (api_version : string) (results : list value) :
  get_aad_users session endpoint user_ids query_select api_version = Ok results ->
  List.length results = List.length user_ids
  /\ (forall i user_id, nth_error user_ids i = Some user_id ->
        exists raw r,
          session (endpoint ++ "/" ++ api_version ++ "/users/" ++ user_id)
                  (String.concat "," query_select) = Ok raw
          /\ nth_error results i = Some r
          /\ contains "id" r = Ok true
          /\ contains "signInActivity" r = Ok true
          /\ forall d, raw = VDict d ->
               exists d',
                 r = VDict d'
                 /\ Dict.get "id" d'
                    = Some (match Dict.get "id" d with
                            | Some v => v
                            | None => VStr user_id
                            end)
                 /\ Dict.get "signInActivity" d'
                    = Some (match Dict.get "signInActivity" d with
                            | Some v => v
                            | None => absent_activity
                            end))
  /\ (NoDup user_ids ->
      (forall user_id raw,
          In user_id user_ids ->
          session (endpoint ++ "/" ++ api_version ++ "/users/" ++ user_id)
                  (String.concat "," query_select) = Ok raw ->
          echoes user_id raw) ->
      forall user_id, In user_id user_ids ->
                      List.length (filter (has_id user_id) results) = 1).
Proof.
  intros Hrun. unfold get_aad_users in Hrun.
  pose proof (comprehension_Forall2 _ _ _ Hrun) as Hall. cbv beta in Hall.
  split; [symmetry; exact (Forall2_length Hall)|]. split.
  - intros i user_id Hi.
    destruct (Forall2_nth_error _ _ _ Hall i user_id Hi) as (r & Hr & Hget).
    destruct (FetchFacts.get_url_ok _ _ _ _ _ Hget) as (raw & Hraw & Hfill).
    exists raw, r.
    destruct (FetchFacts.fill_defaults_contains _ _ _ Hfill) as [Hid Hact].
    repeat split; try assumption.
    intros d ->. rewrite FetchFacts.fill_defaults_object in Hfill.
    injection Hfill as <-. exists (filled user_id d).
    now rewrite FetchFacts.filled_id, FetchFacts.filled_activity.
  - intros Hnd Hecho user_id Hin.
    apply (FetchFacts.one_hit user_id user_ids results); try assumption.
    apply (FetchFacts.Forall2_impl_in _ _ _ _ Hall).
    intros u r Hu Hget.
    destruct (FetchFacts.get_url_ok _ _ _ _ _ Hget) as (raw & Hraw & Hfill).
    destruct (Hecho u raw Hu Hraw) as (d & -> & Hd).
    rewrite FetchFacts.fill_defaults_object in Hfill. injection Hfill as <-.
    cbn [subscript]. unfold Dict.getitem. rewrite FetchFacts.filled_id.
    destruct Hd as [-> | ->]; reflexivity.
Qed.

Lemma get_aad_users_results_witness :
  exists results,
    get_aad_users example_session "https://graph.microsoft.com" ["u1"; "u2"]
                  ["signInActivity"; "accountEnabled"] "beta" = Ok results
    /\ List.length results = 2
    /\ List.length (filter (has_id "u1") results) = 1
    /\ List.length (filter (has_id "u2") results) = 1.
Proof.
  eexists. split; [vm_compute; reflexivity|].
  match goal with
  | |- List.length ?rs = _ /\ _ =>
      destruct (get_aad_users_results
                  example_session "https://graph.microsoft.com" ["u1"; "u2"]
                  ["signInActivity"; "accountEnabled"] "beta" rs)
        as (Hlen & _ & Honce)
  end.
  - vm_compute. reflexivity.
  - split; [exact Hlen|].
    assert (Hnd : NoDup ["u1"; "u2"]).
    { repeat constructor; simpl; intuition discriminate. }
    assert (Hecho : forall user_id raw,
               In user_id ["u1"; "u2"] ->
               example_session
                 ("https://graph.microsoft.com" ++ "/" ++ "beta" ++ "/users/" ++ user_id)
                 (String.concat "," ["signInActivity"; "accountEnabled"]) = Ok raw ->
               echoes user_id raw).
    { intros user_id raw [<-|[<-|[]]] Hraw; vm_compute in Hraw;
        injection Hraw as <-; eexists; (split; [reflexivity|]);
        [left | right]; reflexivity. }
    split; apply (Honce Hnd Hecho); simpl; intuition.
Defined.

(** C6, as stated, fails on a batch that names a user twice, whose id is
    then the id of two results; on a service that answers with the record
    of another user, where the requested id is the id of no result; and on
    a batch with a failing request, which returns no result at all. *)
Lemma get_aad_users_id_not_once :
  (exists results,
      get_aad_users example_session "https://graph.microsoft.com"
                    ["u2"; "u1"; "u2"] ["signInActivity"] "beta" = Ok results
      /\ List.length (filter (has_id "u2") results) = 2)
  /\ (exists results,
         get_aad_users misdirected_session "https://graph.microsoft.com"
                       ["u1"] ["signInActivity"] "beta" = Ok results
         /\ List.length (filter (has_id "u1") results) = 0)
  /\ get_aad_users example_session "https://graph.microsoft.com"
                   ["u1"; "u3"] ["signInActivity"] "beta"
     = Raise (Exception ValueError).
Proof.
  split; [|split; [|vm_compute; reflexivity]];
    eexists; (split; [vm_compute; reflexivity|]); vm_compute; reflexivity.
Qed.

(** ** The report rows *)

(** Runs a sequence of binds that is known to return, naming the result of
    each step. *)
Ltac step_binds H :=
  repeat match type of H with
         | bind ?m _ = Ok _ =>
             let E := fresh "E" in
             destruct m eqn:E; cbn [bind] in H |- *; [|discriminate H]
         end.

Lemma getitem_ok {V : Type} (k : string) (d : Dict.t V) (v : V) :
  Dict.getitem k d = Ok v -> Dict.get k d = Some v.
Proof.
  unfold Dict.getitem. destruct (Dict.get k d); [|discriminate].
  intros H. now injection H as <-.
Qed.

(** The row of one record: its cells, and the records on which it
    raises. *)
Lemma xlsx_row_cells (set_order : list string -> list string) (x : record) :
  (forall row, xlsx_row set_order x = Ok row -> row_cells set_order x row)
  /\ (forall f, In f source_fields -> Dict.get f x = None ->
                raises (xlsx_row set_order x))
  /\ (forall a f,
         Dict.get "signInActivity" x = Some a ->
         In f ["lastSignInDateTime"; "lastNonInteractiveSignInDateTime"] ->
         raises (subscript a f) ->
         raises (xlsx_row set_order x)).
Proof.
  split; [|split].
  - intros row H. unfold row_cells. unfold xlsx_row in H. step_binds H.
    injection H as <-. repeat split; reflexivity.
  - intros f Hin Hnone.
    destruct (xlsx_row set_order x) as [row|e] eqn:H; [|now exists e].
    exfalso. unfold xlsx_row in H. step_binds H.
    repeat match goal with
           | E : Dict.getitem _ x = Ok _ |- _ => apply getitem_ok in E
           end.
    cbn [source_fields In] in Hin.
    repeat (destruct Hin as [<-|Hin]; [congruence|]). exact Hin.
  - intros a f Ha Hin [e He].
    destruct (xlsx_row set_order x) as [row|e'] eqn:H; [|now exists e'].
    exfalso. unfold xlsx_row in H. step_binds H.
    repeat match goal with
           | E : Dict.getitem _ x = Ok _ |- _ => apply getitem_ok in E
           end.
    repeat match goal with
           | E : Dict.get "signInActivity" x = Some ?b |- _ =>
               lazymatch b with
               | a => fail
               | _ => assert (b = a) by congruence; subst b
               end
           end.
    cbn [In] in Hin. repeat (destruct Hin as [<-|Hin]; [congruence|]). exact Hin.
Qed.

Lemma item_to_string_not_none (item : value) : item_to_string item <> Ok VNone.
Proof.
  destruct item as [| [|] | n | s | l | d0]; try discriminate.
  unfold item_to_string.
  destruct (is_datetime (VStr s)) as [r|[]]; discriminate.
Qed.

(** C7, as stated, fails on a record whose display name is null: the cell
    of the display name is null, which no field normaliser returns on any
    input. *)
Lemma xlsx_dict_prep_null_name :
  exists row,
    xlsx_dict_prep (nodup string_dec) [nameless_record] = Ok [row]
    /\ Dict.getitem "userDisplayName" row = Ok VNone
    /\ forall N v, In N (normalisers (nodup string_dec)) -> N v <> Ok VNone.
Proof.
  eexists. split; [vm_compute; reflexivity|]. split; [reflexivity|].
  intros N v Hin. cbn [normalisers In] in Hin.
  destruct Hin as [<-|[<-|[<-|[<-|[<-|[<-|[]]]]]]].
  - apply item_to_string_not_none.
  - destruct (is_datetime v); discriminate.
  - destruct v; try discriminate. apply item_to_string_not_none.
  - destruct (is_external_domain v); discriminate.
  - destruct (get_tenant_domain v); discriminate.
  - destruct (get_mfa_methods (nodup string_dec) v); discriminate.
Qed.

(** C7, amended: the row builder.  When [xlsx_dict_prep] returns, it
    returns one row per merged record, in order; each row has the thirteen
    columns of the report in their order; userId, userDisplayName and
    userPrincipalName are the source fields id, userDisplayName and
    userPrincipalName copied unchanged, and every other cell is the
    normaliser of its column applied to the source field.  A record that
    lacks one of the source fields, or whose sign-in activity lacks one of
    its two timestamps, makes [xlsx_dict_prep] raise. *)
Theorem xlsx_dict_prep_columns (set_order : list string -> list string)
        (data : list record) :
  (forall rows,
      xlsx_dict_prep set_order data = Ok rows ->
      List.length rows = List.length data
      /\ Forall2 (row_cells set_order) data rows)
  /\ (forall x f,
         In x data -> In f source_fields -> Dict.get f x = None ->
         raises (xlsx_dict_prep set_order data))
  /\ (forall x a f,
         In x data ->
         Dict.get "signInActivity" x = Some a ->
         In f ["lastSignInDateTime"; "lastNonInteractiveSignInDateTime"] ->
         raises (subscript a f) ->
         raises (xlsx_dict_prep set_order data)).
Proof.
  assert (Hfail : forall x, In x data -> raises (xlsx_row set_order x) ->
                            raises (xlsx_dict_prep set_order data)).
  { intros x Hin Hx. unfold xlsx_dict_prep.
    destruct (comprehension_raise (xlsx_row set_order) data) as (_ & e & _ & _ & Hc).
    - now exists x.
    - now exists e. }
  split; [|split].
  - intros rows H. unfold xlsx_dict_prep in H.
    pose proof (comprehension_Forall2 _ _ _ H) as Hall.
    split; [symmetry; exact (Forall2_length Hall)|].
    apply (FetchFacts.Forall2_impl_in _ _ _ _ Hall).
    intros x row _ Hrow. exact (proj1 (xlsx_row_cells set_order x) row Hrow).
  - intros x f Hin Hf Hnone. apply (Hfail x Hin).
    exact (proj1 (proj2 (xlsx_row_cells set_order x)) f Hf Hnone).
  - intros x a f Hin Ha Hf Hraise. apply (Hfail x Hin).
    exact (proj2 (proj2 (xlsx_row_cells set_order x)) a f Ha Hf Hraise).
Qed.

Lemma xlsx_dict_prep_columns_witness :
  exists rows,
    xlsx_dict_prep (nodup string_dec) [example_record; nameless_record] = Ok rows
    /\ List.length rows = 2
    /\ Forall2 (row_cells (nodup string_dec)) [example_record; nameless_record] rows
    /\ raises (xlsx_dict_prep (nodup string_dec)
                              [example_record; [("id", VStr "u1")]]).
Proof.
  eexists. split; [vm_compute; reflexivity|].
  match goal with
  | |- List.length ?rs = _ /\ _ =>
      destruct (xlsx_dict_prep_columns
                  (nodup string_dec) [example_record; nameless_record])
        as (Hrows & _ & _);
      destruct (Hrows rs) as (Hlen & Hcells)
  end.
  - vm_compute. reflexivity.
  - split; [exact Hlen|]. split; [exact Hcells|].
    destruct (xlsx_dict_prep_columns
                (nodup string_dec) [example_record; [("id", VStr "u1")]])
      as (_ & Hmissing & _).
    apply (Hmissing [("id", VStr "u1")] "userDisplayName").
    + simpl. intuition.
    + simpl. intuition.
    + vm_compute. reflexivity.
Defined.

(** * Further properties *)

(** ** The matcher on literals and on the two domain patterns *)

Module SearchFacts.
Import Re.

Lemma last_prev_app (a b : string) :
  forall prev, last_prev prev (a ++ b) = last_prev (last_prev prev a) b.
Proof. induction a as [|c a IH]; intros prev; cbn; [reflexivity | apply IH]. Qed.

(** A match hands to its continuation a later position of the same
    text, with the character before it. *)
Lemma star_reaches (p : ascii -> bool) (suf : string) :
  forall prev k m,
    star p prev suf k = Some m ->
    exists pre suf',
      suf = pre ++ suf' /\ k (last_prev prev pre) suf' = Some m.
Proof.
  induction suf as [|c suf IH]; intros prev k m H; cbn [star] in H.
  - now exists "", "".
  - destruct (p c).
    + destruct (star p (Some c) suf k) as [m'|] eqn:E.
      * injection H as <-. destruct (IH _ _ _ E) as (pre & s' & -> & Hk).
        now exists (String c pre), s'.
      * now exists "", (String c suf).
    + now exists "", (String c suf).
Qed.

Lemma run_reaches (r : regex) :
  forall prev suf gs k m,
    run r prev suf gs k = Some m ->
    exists pre suf' gs',
      suf = pre ++ suf' /\ k (last_prev prev pre) suf' gs' = Some m.
Proof.
  induction r as [| p | r1 IH1 r2 IH2 | r1 IH1 r2 IH2 | p | r IH | p | r IH |];
    intros prev suf gs k m H; cbn [run] in H.
  - now exists "", suf, gs.
  - destruct suf as [|c suf]; [discriminate|].
    destruct (p c); [|discriminate].
    now exists (String c ""), suf, gs.
  - destruct (IH1 _ _ _ _ _ H) as (pre1 & s1 & g1 & -> & H1).
    destruct (IH2 _ _ _ _ _ H1) as (pre2 & s2 & g2 & -> & H2).
    exists (pre1 ++ pre2), s2, g2. split.
    + now rewrite string_app_assoc.
    + now rewrite last_prev_app.
  - destruct (run r1 prev suf gs k) as [m'|] eqn:E.
    + injection H as <-. now apply IH1 in E.
    + now apply IH2 in H.
  - destruct (star_reaches _ _ _ _ _ H) as (pre & s' & -> & Hk).
    now exists pre, s', gs.
  - destruct (IH _ _ _ _ _ H) as (pre & s' & g' & Hs & Hk).
    now exists pre, s', (g' ++ [consumed suf s'])%list.
  - destruct prev as [c|]; [|discriminate]. destruct (p c); [|discriminate].
    now exists "", suf, gs.
  - destruct (run r prev suf gs _) as [m'|]; [|discriminate].
    now exists "", suf, (f_groups m').
  - destruct suf as [|c [|c' suf]]; try discriminate.
    + now exists "", "", gs.
    + destruct (Ascii.eqb c newline); [|discriminate].
      now exists "", (String c ""), gs.
Qed.

Lemma run_lits (m : string) :
  forall prev rest gs k,
    run (lits m) prev (m ++ rest) gs k = k (last_prev prev m) rest gs.
Proof.
  induction m as [|c m IH]; intros prev rest gs k; cbn [lits run append last_prev].
  - reflexivity.
  - unfold lit. rewrite Ascii.eqb_refl. apply IH.
Qed.

Lemma run_lits_inv (m : string) :
  forall prev s gs k x,
    run (lits m) prev s gs k = Some x ->
    exists rest, s = m ++ rest /\ k (last_prev prev m) rest gs = Some x.
Proof.
  induction m as [|c m IH]; intros prev s gs k x H; cbn [lits run] in H.
  - now exists s.
  - destruct s as [|c' s]; [discriminate|]. unfold lit in H.
    destruct (Ascii.eqb_spec c' c) as [->|]; [|discriminate].
    destruct (IH _ _ _ _ _ H) as (rest & -> & Hk). now exists rest.
Qed.

(** A search that finds a match finds it at a later position of the
    text. *)
Lemma search_reaches (r : regex) (s : string) :
  forall must_advance prev from m,
    search r must_advance prev s = Some (from, m) ->
    exists a must_advance',
      s = a ++ from
      /\ match_at r must_advance' (last_prev prev a) from = Some m.
Proof.
  induction s as [|c s IH]; intros ma prev from m H;
    rewrite ReFacts.search_unfold in H.
  - destruct (match_at r ma prev "") as [m'|] eqn:E; [|discriminate].
    injection H as <- <-. now exists "", ma.
  - destruct (match_at r ma prev (String c s)) as [m'|] eqn:E.
    + injection H as <- <-. now exists "", ma.
    + destruct (IH _ _ _ _ H) as (a & ma' & -> & Hm).
      now exists (String c a), ma'.
Qed.

Lemma search_lits_occurs (m s : string) :
  re_search (lits m) s = true <-> occurs m s.
Proof.
  unfold re_search, occurs. split.
  - destruct (search (lits m) false None s) as [[from x]|] eqn:E; [|discriminate].
    intros _. destruct (search_reaches _ _ _ _ _ _ E) as (a & ma & -> & Hm).
    unfold match_at in Hm.
    destruct (run_lits_inv _ _ _ _ _ _ Hm) as (rest & -> & _).
    now exists a, rest.
  - intros (a & b & ->).
    assert (H : forall prev, search (lits m) false prev (a ++ m ++ b) <> None).
    { induction a as [|c a IH]; intros prev; rewrite ReFacts.search_unfold.
      - cbn [append]. unfold match_at. rewrite run_lits. cbn [andb]. discriminate.
      - cbn [append].
        destruct (match_at (lits m) false prev (String c (a ++ m ++ b)));
          [discriminate | apply IH]. }
    specialize (H None).
    now destruct (search (lits m) false None (a ++ m ++ b)).
Qed.

Lemma last_prev_snoc (a : string) :
  a <> "" ->
  forall prev, exists a' c, a = a' ++ String c "" /\ last_prev prev a = Some c.
Proof.
  induction a as [|x a IH]; intros Hne prev; [congruence|].
  destruct a as [|y a].
  - now exists "", x.
  - destruct (IH ltac:(discriminate) (Some x)) as (a' & c & Ha & Hc).
    exists (String x a'), c. split.
    + cbn [append]. now rewrite <- Ha.
    + exact Hc.
Qed.

Lemma after_first_occurs (c : ascii) (s : string) :
  after_first c s = None -> ~ occurs (String c "") s.
Proof.
  intros H (a & b & ->). revert H.
  induction a as [|x a IH]; cbn [append after_first].
  - now rewrite Ascii.eqb_refl.
  - destruct (Ascii.eqb x c); [discriminate | exact IH].
Qed.

Lemma after_first_app (c : ascii) (a t : string) :
  after_first c a = None -> after_first c (a ++ String c t) = Some t.
Proof.
  induction a as [|x a IH]; cbn [append after_first].
  - now rewrite Ascii.eqb_refl.
  - destruct (Ascii.eqb x c); [discriminate | exact IH].
Qed.

(** The pattern of the external domain matches only right after an
    underscore and only before the marker. *)
Lemma external_match_inv (must_advance : bool) (prev : option ascii)
      (from : string) (m : found) :
  match_at external_domain_re must_advance prev from = Some m ->
  prev = Some "_"%char
  /\ exists pre rest, from = pre ++ "#EXT#" ++ rest.
Proof.
  unfold match_at, external_domain_re. cbn [run]. intros H.
  destruct prev as [c|]; [|discriminate]. unfold lit in H.
  destruct (Ascii.eqb_spec c "_") as [->|]; [|discriminate].
  split; [reflexivity|].
  destruct (star_reaches _ _ _ _ _ H) as (pre & s' & -> & Hk). cbv beta in Hk.
  destruct (run (lits "#EXT#") (last_prev (Some "_"%char) pre) s' _ _)
    as [m'|] eqn:E; [|discriminate].
  destruct (run_lits_inv _ _ _ _ _ _ E) as (rest & -> & _).
  now exists pre, rest.
Qed.

Lemma external_no_match (must_advance : bool) (prev : option ascii) (suf : string) :
  match prev with Some c => Ascii.eqb c "_" = false | None => True end ->
  match_at external_domain_re must_advance prev suf = None.
Proof.
  intros Hprev. unfold match_at, external_domain_re. cbn [run].
  destruct prev as [c|]; [|reflexivity].
  unfold lit. now rewrite Hprev.
Qed.

(** The search moves on to the first underscore. *)
Lemma external_skip (s : string) :
  forall prev : option ascii,
    match prev with Some c => Ascii.eqb c "_" = false | None => True end ->
    search external_domain_re false prev s
    = match after_first "_" s with
      | Some t => search external_domain_re false (Some "_"%char) t
      | None => None
      end.
Proof.
  induction s as [|x s IH]; intros prev Hprev;
    rewrite ReFacts.search_unfold, external_no_match by exact Hprev.
  - reflexivity.
  - cbn [after_first]. destruct (Ascii.eqb x "_") eqn:Hx.
    + apply Ascii.eqb_eq in Hx. now subst x.
    + now apply IH.
Qed.

(** A greedy star gives way to its continuation where it stands when the
    continuation refuses every later position. *)
Lemma star_gives_way (p : ascii -> bool) (y : string) :
  forall prev k,
    (forall z y' q, z <> "" -> y = z ++ y' -> k q y' = None) ->
    star p prev y k = k prev y.
Proof.
  induction y as [|c y IH]; intros prev k Hlater; cbn [star]; [reflexivity|].
  destruct (p c); [|reflexivity].
  rewrite IH.
  - now rewrite (Hlater (String c "") y (Some c)).
  - intros z y' q Hz ->. apply (Hlater (String c z) y' q); [discriminate | reflexivity].
Qed.

(** A greedy run of dots stops at the last place of the line where the
    continuation accepts. *)
Lemma star_dot_last (x y : string) :
  forall prev k m,
    one_line x = true ->
    k (last_prev prev x) y = Some m ->
    (forall z y' q, z <> "" -> y = z ++ y' -> k q y' = None) ->
    star dot prev (x ++ y) k = Some m.
Proof.
  induction x as [|c x IH]; intros prev k m Hline Hk Hlater.
  - cbn [append]. now rewrite star_gives_way.
  - cbn [one_line] in Hline. apply andb_true_iff in Hline as [Hc Hline].
    cbn [append star]. rewrite Hc.
    now rewrite (IH (Some c) k m Hline Hk Hlater).
Qed.

End SearchFacts.

(** ** Guest accounts *)

Lemma external_match_last (dom rest : string) :
  one_line dom = true ->
  Re.re_search (Re.lits "#EXT#") ("EXT#" ++ rest) = false ->
  Re.match_at external_domain_re false (Some "_"%char) (dom ++ "#EXT#" ++ rest)
  = Some (Re.mkFound (last_prev (Some "_"%char) dom) ("#EXT#" ++ rest) [dom]).
Proof.
  intros Hline Hlast. unfold Re.match_at, external_domain_re.
  rewrite DatetimeFacts.run_Seq. cbn [Re.run]. unfold Re.lit at 1.
  rewrite Ascii.eqb_refl.
  apply SearchFacts.star_dot_last; [exact Hline | |].
  - rewrite SearchFacts.run_lits. cbn [Re.f_groups andb app].
    now rewrite DatetimeFacts.consumed_app.
  - intros z y' q Hz Hy.
    destruct (Re.run (Re.lits "#EXT#") q y' _ _) as [m'|] eqn:E; [|reflexivity].
    exfalso.
    destruct (SearchFacts.run_lits_inv _ _ _ _ _ _ E) as (r & -> & _).
    destruct z as [|c z]; [congruence|].
    cbn [append] in Hy. injection Hy as _ Hy.
    assert (Hocc : occurs "#EXT#" ("EXT#" ++ rest)) by (now exists z, r).
    apply SearchFacts.search_lits_occurs in Hocc. congruence.
Qed.

(** X1: a principal name is reported as external exactly when the marker
    occurs in it; anything but a string makes the search raise. *)
Theorem is_external_marker :
  (forall s, occurs "#EXT#" s -> is_external (VStr s) = Ok (VStr "Yes"))
  /\ (forall s, ~ occurs "#EXT#" s -> is_external (VStr s) = Ok (VStr "No"))
  /\ (forall v, (forall s, v <> VStr s) -> is_external v = Raise TypeError).
Proof.
  split; [|split].
  - intros s H. apply SearchFacts.search_lits_occurs in H.
    unfold is_external. now rewrite H.
  - intros s H. unfold is_external.
    destruct (Re.re_search (Re.lits "#EXT#") s) eqn:E; [|reflexivity].
    apply SearchFacts.search_lits_occurs in E. contradiction.
  - intros v H. destruct v; try reflexivity. now destruct (H s).
Qed.

Lemma is_external_marker_witness :
  is_external (VStr "john_contoso.com#EXT#@tenant.onmicrosoft.com") = Ok (VStr "Yes")
  /\ is_external (VNum 7) = Raise TypeError.
Proof.
  destruct is_external_marker as (Hyes & _ & Hother). split.
  - apply Hyes. exists "john_contoso.com", "@tenant.onmicrosoft.com". reflexivity.
  - apply Hother. discriminate.
Defined.

(** X2: a name that is not reported as external, or that holds no
    underscore, has no external domain. *)
Theorem no_marker_no_external_domain (s : string) :
  is_external (VStr s) = Ok (VStr "No") \/ after_first "_" s = None ->
  is_external_domain (VStr s) = Ok "N/A".
Proof.
  intros H. unfold is_external_domain. rewrite ReFacts.findall_first.
  destruct (Re.search external_domain_re false None s) as [[from m]|] eqn:E;
    [exfalso | reflexivity].
  destruct (SearchFacts.search_reaches _ _ _ _ _ _ E) as (a & ma & -> & Hm).
  destruct (SearchFacts.external_match_inv _ _ _ _ Hm) as (Hprev & pre & rest & ->).
  destruct H as [H|H].
  - unfold is_external in H.
    destruct (Re.re_search (Re.lits "#EXT#") (a ++ pre ++ "#EXT#" ++ rest)) eqn:Hs;
      [discriminate|].
    assert (Hocc : occurs "#EXT#" (a ++ pre ++ "#EXT#" ++ rest)).
    { exists (a ++ pre), rest. now rewrite string_app_assoc. }
    apply SearchFacts.search_lits_occurs in Hocc. congruence.
  - apply SearchFacts.after_first_occurs in H. apply H.
    destruct a as [|x a]; [discriminate|].
    destruct (SearchFacts.last_prev_snoc (String x a) ltac:(discriminate) None)
      as (a' & c & Ha & Hc).
    rewrite Hc in Hprev. injection Hprev as ->.
    exists a', (pre ++ "#EXT#" ++ rest). rewrite Ha.
    now rewrite string_app_assoc.
Qed.

Lemma no_marker_no_external_domain_witness :
  is_external_domain (VStr "jane_doe@tenant.onmicrosoft.com") = Ok "N/A"
  /\ is_external_domain (VStr "jane#EXT#@tenant.onmicrosoft.com") = Ok "N/A".
Proof.
  split.
  - apply no_marker_no_external_domain. left. vm_compute. reflexivity.
  - apply no_marker_no_external_domain. right. vm_compute. reflexivity.
Defined.

(** X3: on a name made of a part without underscore, an underscore, one
    line of text, the marker and a rest in which the marker does not start
    again, the external domain is the text between the first underscore
    and the marker. *)
Theorem is_external_domain_first_underscore (a dom rest : string) :
  after_first "_" a = None ->
  one_line dom = true ->
  Re.re_search (Re.lits "#EXT#") ("EXT#" ++ rest) = false ->
  is_external_domain (VStr (a ++ "_" ++ dom ++ "#EXT#" ++ rest)) = Ok dom.
Proof.
  intros Ha Hline Hlast. unfold is_external_domain.
  rewrite ReFacts.findall_first.
  rewrite (SearchFacts.external_skip _ None I).
  change ("_" ++ dom ++ "#EXT#" ++ rest)
    with (String "_" (dom ++ "#EXT#" ++ rest)).
  rewrite (SearchFacts.after_first_app _ _ _ Ha).
  rewrite ReFacts.search_unfold, (external_match_last dom rest Hline Hlast).
  reflexivity.
Qed.

Lemma is_external_domain_first_underscore_witness :
  is_external_domain (VStr ("john" ++ "_" ++ "doe_contoso.com" ++ "#EXT#"
                            ++ "@tenant.onmicrosoft.com"))
  = Ok "doe_contoso.com".
Proof.
  apply is_external_domain_first_underscore; vm_compute; reflexivity.
Defined.

(** ** The timestamp rule and the display rule, again *)

Module TimestampFacts.
Import Re.

Lemma strptime_valid (s : string) (dt : datetime) :
  strptime s = Ok dt -> valid dt = true.
Proof.
  unfold strptime.
  destruct (match_at format_re false None s) as [m|]; [|discriminate].
  destruct (f_rest m); [|discriminate].
  destruct (f_groups m) as [|g1 [|g2 [|g3 [|g4 [|g5 [|g6 [|g7 gs]]]]]]];
    try discriminate.
  destruct (valid _) eqn:E; [|discriminate].
  intros H. injection H as <-. exact E.
Qed.

(** The format accepts only text that ends with the letter Z, in either
    case. *)
Lemma strptime_ends_Z (s : string) (dt : datetime) :
  strptime s = Ok dt ->
  exists body c, s = body ++ String c "" /\ lit_nocase "Z" c = true.
Proof.
  unfold strptime.
  destruct (match_at format_re false None s) as [m|] eqn:E; [|discriminate].
  destruct (f_rest m) eqn:Hrest; [|discriminate]. intros _.
  unfold match_at, format_re in E.
  do 11 (rewrite DatetimeFacts.run_Seq in E;
         apply SearchFacts.run_reaches in E;
         destruct E as (? & ? & ? & -> & E)).
  unfold one in E. cbn [run] in E.
  match type of E with
  | match ?t with _ => _ end = _ => destruct t as [|c t'] eqn:Ht; [discriminate|]
  end.
  destruct (lit_nocase "Z" c) eqn:Hc; [|discriminate].
  cbn [andb] in E. injection E as <-. cbn [f_rest] in Hrest. subst t'.
  eexists _, c. split; [|exact Hc].
  rewrite <- !string_app_assoc. reflexivity.
Qed.

Lemma snoc_inj (x y : string) (b c : ascii) :
  x ++ String b "" = y ++ String c "" -> b = c.
Proof.
  revert y. induction x as [|a x IH]; intros [|a' y] H; cbn [append] in H.
  - now injection H.
  - injection H as _ H. destruct y; discriminate.
  - injection H as _ H. destruct x; discriminate.
  - injection H as _ H. now apply IH in H.
Qed.

Lemma digit_char_not_Z (n : nat) : n < 10 -> lit_nocase "Z" (digit_char n) = false.
Proof. intros H. DatetimeFacts.enum n 10; try lia; reflexivity. Qed.

(** The ISO text that the timestamp rule returns is not itself a
    timestamp of the format. *)
Lemma strptime_isoformat_rejected (dt : datetime) :
  strptime (isoformat dt) = Raise ValueError.
Proof.
  destruct (strptime (isoformat dt)) as [dt'|e] eqn:E.
  - exfalso. destruct (strptime_ends_Z _ _ E) as (body & c & Hs & Hc).
    unfold isoformat, pad2 in Hs.
    replace (String (digit_char (second dt / 10 mod 10))
                    (String (digit_char (second dt mod 10)) ""))
      with (String (digit_char (second dt / 10 mod 10)) ""
            ++ String (digit_char (second dt mod 10)) "") in Hs by reflexivity.
    rewrite <- !string_app_assoc in Hs. apply snoc_inj in Hs. subst c.
    rewrite digit_char_not_Z in Hc by (apply Nat.mod_upper_bound; lia).
    discriminate.
  - now rewrite (DatetimeFacts.strptime_raises _ _ E).
Qed.

Lemma isoformat_length (dt : datetime) : String.length (isoformat dt) = 19.
Proof. reflexivity. Qed.

End TimestampFacts.

Lemma item_to_string_rejected (s : string) :
  s <> "" -> strptime s = Raise ValueError ->
  item_to_string (VStr s) = Ok (VStr s).
Proof.
  intros Hne H. unfold item_to_string, is_datetime.
  rewrite (truthy_nonempty s Hne). now rewrite H.
Qed.

Lemma isoformat_nonempty (dt : datetime) : isoformat dt <> "".
Proof. discriminate. Qed.

(** X4: the display rule never raises; what it returns is neither null nor
    a boolean, and the rule leaves it unchanged when applied again. *)
Theorem item_to_string_settles (item : value) :
  exists shown,
    item_to_string item = Ok shown
    /\ item_to_string shown = Ok shown
    /\ shown <> VNone
    /\ (forall b, shown <> VBool b).
Proof.
  destruct item as [| [|] | n | s | l | d0].
  - exists (VStr "N/A"). repeat split; try reflexivity; discriminate.
  - exists (VStr "Yes"). repeat split; try reflexivity; discriminate.
  - exists (VStr "No"). repeat split; try reflexivity; discriminate.
  - exists (VNum n). repeat split; try reflexivity; discriminate.
  - destruct s as [|c s].
    + exists (VStr "N/A"). repeat split; try reflexivity; discriminate.
    + destruct (strptime (String c s)) as [dt|e] eqn:Hp.
      * unfold item_to_string at 1. rewrite (is_datetime_parsed _ dt Hp).
        destruct (Nat.ltb 1999 (year dt)).
        -- exists (VStr (isoformat dt)).
           split; [reflexivity|]. split; [|split; discriminate].
           apply item_to_string_rejected;
             [apply isoformat_nonempty
             | apply TimestampFacts.strptime_isoformat_rejected].
        -- exists (VStr "Never"). repeat split; try reflexivity; discriminate.
      * rewrite (DatetimeFacts.strptime_raises _ _ Hp) in Hp.
        exists (VStr (String c s)).
        assert (Hne : String c s <> "") by discriminate.
        rewrite (item_to_string_rejected _ Hne Hp).
        repeat split; try reflexivity; discriminate.
  - exists (VList l). repeat split; try reflexivity; discriminate.
  - exists (VDict d0). repeat split; try reflexivity; discriminate.
Qed.

(** X5: what the timestamp rule returns is "N/A", "Never", or the ISO text,
    nineteen characters long, of a valid instant of the year 2000 or
    later, which the rule itself would reject as input; when it raises, it
    raises [ValueError] on a string and [TypeError] on anything else. *)
Theorem is_datetime_outcomes (item : value) :
  (forall shown,
      is_datetime item = Ok shown ->
      shown = "N/A" \/ shown = "Never"
      \/ exists dt, valid dt = true /\ 1999 < year dt
                    /\ shown = isoformat dt
                    /\ String.length shown = 19
                    /\ is_datetime (VStr shown) = Raise ValueError)
  /\ (forall e,
         is_datetime item = Raise e ->
         (e = ValueError /\ exists s, item = VStr s)
         \/ (e = TypeError /\ forall s, item <> VStr s)).
Proof.
  split.
  - intros shown H. unfold is_datetime in H.
    destruct (truthy item); [|injection H as <-; now left].
    destruct item as [| b | n | s | l | d0]; try discriminate.
    destruct (strptime s) as [dt|e] eqn:Hp; cbn [bind] in H; [|discriminate].
    destruct (Nat.ltb_spec 1999 (year dt)) as [Hy|Hy]; injection H as <-.
    + right. right. exists dt. repeat split.
      * exact (TimestampFacts.strptime_valid _ _ Hp).
      * exact Hy.
      * unfold is_datetime.
        rewrite (truthy_nonempty _ (isoformat_nonempty dt)).
        now rewrite TimestampFacts.strptime_isoformat_rejected.
    + right. now left.
  - intros e H. unfold is_datetime in H.
    destruct (truthy item); [|discriminate].
    destruct item as [| b | n | s | l | d0];
      try (right; injection H as <-; split; [reflexivity | discriminate]).
    left. destruct (strptime s) as [dt|e'] eqn:Hp; cbn [bind] in H.
    + destruct (Nat.ltb 1999 (year dt)); discriminate.
    + injection H as <-. split; [|now exists s].
      exact (DatetimeFacts.strptime_raises _ _ Hp).
Qed.

Lemma is_datetime_outcomes_witness :
  "2023-05-01T12:00:00" = "N/A" \/ "2023-05-01T12:00:00" = "Never"
  \/ exists dt, valid dt = true /\ 1999 < year dt
                /\ "2023-05-01T12:00:00" = isoformat dt
                /\ String.length "2023-05-01T12:00:00" = 19
                /\ is_datetime (VStr "2023-05-01T12:00:00") = Raise ValueError.
Proof.
  destruct (is_datetime_outcomes (VStr "2023-05-01T12:00:00Z")) as [Hok _].
  apply Hok. vm_compute. reflexivity.
Defined.

(** ** Comprehensions, again *)

Lemma comprehension_raise_inv {A B : Type} (f : A -> result B) (l : list A)
      (e : exn) :
  comprehension f l = Raise e -> exists x, In x l /\ f x = Raise e.
Proof.
  induction l as [|a l IH]; cbn [comprehension]; [discriminate|].
  destruct (f a) as [b|e'] eqn:Ha; cbn [bind].
  - destruct (comprehension f l) as [bs|e'']; cbn [bind]; [discriminate|].
    intros H. injection H as ->. destruct IH as (x & Hx & Hfx); [reflexivity|].
    exists x. split; [now right | exact Hfx].
  - intros H. injection H as ->. exists a. split; [now left | exact Ha].
Qed.

Lemma comprehension_ext {A B : Type} (f g : A -> result B) (l : list A) :
  (forall x, In x l -> f x = g x) -> comprehension f l = comprehension g l.
Proof.
  induction l as [|a l IH]; intros H; cbn [comprehension]; [reflexivity|].
  rewrite (H a (or_introl eq_refl)).
  rewrite IH; [reflexivity|]. intros x Hx. apply H. now right.
Qed.

Lemma comprehension_strings (names : list string) :
  comprehension (fun x => match x with VStr s => Ok s | _ => Raise TypeError end)
                (map VStr names)
  = Ok names.
Proof.
  induction names as [|n names IH]; cbn [map comprehension bind]; [reflexivity|].
  now rewrite IH.
Qed.

(** ** The summary of the registered methods *)

(** X6: the summary of the methods.  Null and the empty list give the
    fixed text; a non-empty list of strings gives the comma-joined listing,
    without repetition, of exactly the strings of the list, in the order
    in which the set is iterated; a list holding anything but strings
    raises [TypeError]. *)
Theorem get_mfa_methods_summary (set_order : list string -> list string) :
  (forall l, NoDup (set_order l) /\ forall x, In x (set_order l) <-> In x l) ->
  get_mfa_methods set_order VNone = Ok "No AAD MFA configured"
  /\ get_mfa_methods set_order (VList []) = Ok "No AAD MFA configured"
  /\ (forall names,
         names <> [] ->
         exists listed,
           get_mfa_methods set_order (VList (map VStr names))
           = Ok (String.concat "," listed)
           /\ NoDup listed
           /\ forall x, In x listed <-> In x names)
  /\ (forall l x,
         In x l -> (forall s, x <> VStr s) ->
         get_mfa_methods set_order (VList l) = Raise TypeError).
Proof.
  intros Hset. split; [reflexivity|]. split; [reflexivity|]. split.
  - intros names Hne. exists (set_order names).
    destruct (Hset names) as [Hnd Hin]. split; [|split; assumption].
    unfold get_mfa_methods.
    destruct names as [|n names]; [congruence|].
    cbn [truthy map]. change (VStr n :: map VStr names) with (map VStr (n :: names)).
    now rewrite comprehension_strings.
  - intros l x Hin Hx. unfold get_mfa_methods.
    destruct l as [|y l]; [destruct Hin|]. cbn [truthy].
    destruct (comprehension_raise
                (fun x => match x with VStr s => Ok s | _ => Raise TypeError end)
                (y :: l)) as (x' & e & _ & Hx' & Hc).
    { exists x. split; [exact Hin|]. exists TypeError.
      destruct x; try reflexivity. now destruct (Hx s). }
    rewrite Hc. cbn [bind].
    destruct x'; try discriminate; now injection Hx' as <-.
Qed.

Lemma get_mfa_methods_summary_witness :
  exists listed,
    get_mfa_methods (nodup string_dec) (VList (map VStr ["sms"; "sms"; "push"]))
    = Ok (String.concat "," listed)
    /\ NoDup listed
    /\ forall x, In x listed <-> In x ["sms"; "sms"; "push"].
Proof.
  destruct (get_mfa_methods_summary (nodup string_dec)) as (_ & _ & Hlist & _).
  - intros l. split; [apply NoDup_nodup | intros x; apply nodup_In].
  - apply Hlist. discriminate.
Defined.

(** ** The report rows, again *)

Lemma xlsx_row_keys (set_order : list string -> list string) (x row : record) :
  xlsx_row set_order x = Ok row -> Dict.keys row = report_columns.
Proof.
  intros H. unfold xlsx_row in H. step_binds H. now injection H as <-.
Qed.

Lemma item_to_string_total (item : value) : exists shown, item_to_string item = Ok shown.
Proof.
  destruct item as [| [|] | n | s | l | d0]; try (eexists; reflexivity).
  unfold item_to_string.
  destruct (is_datetime (VStr s)) as [r|e] eqn:E; [eexists; reflexivity|].
  unfold is_datetime in E. destruct (truthy (VStr s)); [|discriminate].
  destruct (strptime s) as [dt|e'] eqn:Hp; cbn [bind] in E.
  - destruct (Nat.ltb 1999 (year dt)); discriminate.
  - injection E as <-. rewrite (DatetimeFacts.strptime_raises _ _ Hp).
    eexists; reflexivity.
Qed.

Lemma is_datetime_ready (v : value) :
  timestamp_ready v -> exists shown, is_datetime v = Ok shown.
Proof.
  intros [-> | (s & -> & [-> | [dt Hdt]])].
  - now exists "N/A".
  - now exists "N/A".
  - rewrite (is_datetime_parsed s dt Hdt). eexists; reflexivity.
Qed.

Lemma get_mfa_methods_ready (set_order : list string -> list string) (v : value) :
  methods_ready v -> exists shown, get_mfa_methods set_order v = Ok shown.
Proof.
  intros [-> | (names & ->)]; [eexists; reflexivity|].
  unfold get_mfa_methods. destruct names as [|n names]; [eexists; reflexivity|].
  cbn [truthy map]. change (VStr n :: map VStr names) with (map VStr (n :: names)).
  rewrite comprehension_strings. eexists; reflexivity.
Qed.

(** X7: the list of rows.  When the builder returns, there is one row per
    record, in order, each with the thirteen columns of the report; one
    record on which the row fails makes the whole list fail; when every
    record gives a row, the builder returns. *)
Theorem xlsx_dict_prep_rows (set_order : list string -> list string)
        (data : list record) :
  (forall rows,
      xlsx_dict_prep set_order data = Ok rows ->
      List.length rows = List.length data
      /\ Forall2 (fun x row => xlsx_row set_order x = Ok row) data rows
      /\ Forall (fun row => Dict.keys row = report_columns) rows)
  /\ (forall x, In x data -> raises (xlsx_row set_order x) ->
                raises (xlsx_dict_prep set_order data))
  /\ ((forall x, In x data -> exists row, xlsx_row set_order x = Ok row) ->
      exists rows, xlsx_dict_prep set_order data = Ok rows).
Proof.
  unfold xlsx_dict_prep. split; [|split].
  - intros rows H. pose proof (comprehension_Forall2 _ _ _ H) as Hall.
    split; [symmetry; exact (Forall2_length Hall)|]. split; [exact Hall|].
    clear H. induction Hall as [|x row data rows Hrow Hall IH]; constructor.
    + exact (xlsx_row_keys _ _ _ Hrow).
    + exact IH.
  - intros x Hin Hx.
    destruct (comprehension_raise (xlsx_row set_order) data) as (_ & e & _ & _ & Hc).
    + now exists x.
    + now exists e.
  - apply comprehension_ok.
Qed.

Lemma xlsx_dict_prep_rows_witness :
  exists rows,
    xlsx_dict_prep (nodup string_dec) [example_record; example_record] = Ok rows
    /\ List.length rows = 2
    /\ raises (xlsx_dict_prep (nodup string_dec) [example_record; []]).
Proof.
  destruct (xlsx_dict_prep_rows (nodup string_dec) [example_record; example_record])
    as (Hrows & _ & Hall).
  destruct Hall as [rows Hr].
  - intros x [<-|[<-|[]]]; eexists; vm_compute; reflexivity.
  - exists rows. split; [exact Hr|]. split; [exact (proj1 (Hrows rows Hr))|].
    destruct (xlsx_dict_prep_rows (nodup string_dec) [example_record; []])
      as (_ & Hfail & _).
    apply (Hfail []).
    + simpl. intuition.
    + exists (KeyError "id"). vm_compute. reflexivity.
Defined.

(** X8: the row of a complete record.  When the record holds the nine
    source fields, its principal name is a string, its methods are null or
    a list of strings, and its sign-in activity is an object whose two
    timestamps are null, empty or well-formed, the row builder returns a
    row. *)
Theorem xlsx_row_ready (set_order : list string -> list string) (x : record)
        (id enabled name state changed methods sync t1 t2 : value)
        (upn : string) (activity : record) :
  Dict.get "id" x = Some id ->
  Dict.get "accountEnabled" x = Some enabled ->
  Dict.get "userDisplayName" x = Some name ->
  Dict.get "userPrincipalName" x = Some (VStr upn) ->
  Dict.get "externalUserState" x = Some state ->
  Dict.get "externalUserStateChangeDateTime" x = Some changed ->
  Dict.get "methodsRegistered" x = Some methods ->
  methods_ready methods ->
  Dict.get "onPremisesSyncEnabled" x = Some sync ->
  Dict.get "signInActivity" x = Some (VDict activity) ->
  Dict.get "lastSignInDateTime" activity = Some t1 ->
  timestamp_ready t1 ->
  Dict.get "lastNonInteractiveSignInDateTime" activity = Some t2 ->
  timestamp_ready t2 ->
  exists row,
    xlsx_row set_order x = Ok row
    /\ Dict.getitem "userId" row = Ok id
    /\ Dict.getitem "userDisplayName" row = Ok name
    /\ Dict.getitem "userPrincipalName" row = Ok (VStr upn).
Proof.
  intros Hid Hen Hname Hupn Hstate Hch Hm Hmr Hsync Hact Ht1 Hr1 Ht2 Hr2.
  destruct (item_to_string_total enabled) as [v1 E1].
  destruct (item_to_string_total state) as [v2 E2].
  destruct (item_to_string_total changed) as [v3 E3].
  destruct (item_to_string_total sync) as [v4 E4].
  destruct (get_mfa_methods_ready set_order methods Hmr) as [v5 E5].
  destruct (is_datetime_ready t1 Hr1) as [v6 E6].
  destruct (is_datetime_ready t2 Hr2) as [v7 E7].
  destruct (item_to_string_total (VBool (Re.re_search (Re.lits "#EXT#") upn)))
    as [v8 E8].
  unfold xlsx_row, Dict.getitem.
  rewrite Hid, Hen, Hname, Hupn, Hstate, Hch, Hm, Hsync, Hact.
  cbn [bind subscript is_external]. unfold Dict.getitem. rewrite Ht1, Ht2.
  rewrite E1. cbn [bind]. rewrite E8. cbn [bind is_external_domain].
  destruct (Re.findall external_domain_re upn); cbn [bind];
    rewrite E2; cbn [bind]; rewrite E3; cbn [bind get_tenant_domain];
    destruct (Re.findall tenant_domain_re upn); cbn [bind];
    rewrite E5; cbn [bind]; rewrite E4; cbn [bind];
    rewrite E6; cbn [bind]; rewrite E7; cbn [bind];
    eexists; repeat split.
Qed.

Lemma xlsx_row_ready_witness :
  exists row,
    xlsx_row (nodup string_dec) example_record = Ok row
    /\ Dict.getitem "userId" row = Ok (VStr "u1")
    /\ Dict.getitem "userDisplayName" row = Ok (VStr "John")
    /\ Dict.getitem "userPrincipalName" row
       = Ok (VStr "john_contoso.com#EXT#@tenant.onmicrosoft.com").
Proof.
  apply (xlsx_row_ready
           (nodup string_dec) example_record
           (VStr "u1") (VBool true) (VStr "John") (VStr "Accepted")
           (VStr "2023-05-01T12:00:00Z") (VList [VStr "sms"; VStr "push"])
           VNone VNone VNone
           "john_contoso.com#EXT#@tenant.onmicrosoft.com"
           [ ("lastSignInDateTime", VNone);
             ("lastNonInteractiveSignInDateTime", VNone) ]);
    try reflexivity.
  - right. exists ["sms"; "push"]. reflexivity.
  - now left.
  - now left.
Defined.

(** ** The fetch, again *)

Lemma filled_keeps (user_id : string) (d : record) (f : string) (v : value) :
  Dict.get f d = Some v -> Dict.get f (filled user_id d) = Some v.
Proof.
  intros H. unfold filled.
  set (d1 := if Dict.mem "id" d then d else Dict.set "id" (VStr user_id) d).
  assert (H1 : Dict.get f d1 = Some v).
  { subst d1. unfold Dict.mem. destruct (Dict.get "id" d) eqn:E; [exact H|].
    rewrite DictFacts.get_set_other; [exact H|]. intros ->. congruence. }
  unfold Dict.mem.
  destruct (Dict.get "signInActivity" d1) eqn:E; [exact H1|].
  rewrite DictFacts.get_set_other; [exact H1|]. intros ->. congruence.
Qed.

Lemma get_set_inv {V : Type} (k f : string) (v : V) (d : Dict.t V) :
  Dict.get f (Dict.set k v d) <> None -> Dict.get f d <> None \/ f = k.
Proof.
  destruct (String.eqb_spec f k) as [->|Hne]; [now right|].
  rewrite DictFacts.get_set_other by exact Hne. now left.
Qed.

Lemma filled_adds (user_id : string) (d : record) (f : string) :
  Dict.get f (filled user_id d) <> None ->
  Dict.get f d <> None \/ f = "id" \/ f = "signInActivity".
Proof.
  unfold filled.
  destruct (Dict.mem "signInActivity" _); destruct (Dict.mem "id" d); intros H.
  - now left.
  - apply get_set_inv in H. tauto.
  - apply get_set_inv in H. tauto.
  - apply get_set_inv in H. destruct H as [H|H]; [|tauto].
    apply get_set_inv in H. tauto.
Qed.

Lemma filled_wf (user_id : string) (d : record) :
  Dict.wf d -> Dict.wf (filled user_id d).
Proof.
  intros H. unfold filled.
  destruct (Dict.mem "signInActivity" _); destruct (Dict.mem "id" d);
    repeat apply DictFacts.wf_set; exact H.
Qed.

(** X9: what [get_url] does to a response.  A result is left as it is when
    the defaults are filled in again, whatever the user id; a JSON object
    keeps every field it came with, gains no key but the id and the
    sign-in activity, and keeps its keys distinct. *)
Theorem fill_defaults_keeps (user_id other_id : string) (raw r : value) :
  fill_defaults user_id raw = Ok r ->
  fill_defaults other_id r = Ok r
  /\ forall d, raw = VDict d ->
       exists d',
         r = VDict d'
         /\ (forall f v, Dict.get f d = Some v -> Dict.get f d' = Some v)
         /\ (forall f, Dict.get f d' <> None ->
                       Dict.get f d <> None \/ f = "id" \/ f = "signInActivity")
         /\ (Dict.wf d -> Dict.wf d').
Proof.
  intros H. split.
  - destruct (FetchFacts.fill_defaults_contains _ _ _ H) as [Hid Hact].
    unfold fill_defaults. rewrite Hid. cbn [bind]. now rewrite Hact.
  - intros d ->. rewrite FetchFacts.fill_defaults_object in H.
    injection H as <-. exists (filled user_id d). split; [reflexivity|].
    split; [apply filled_keeps|]. split; [apply filled_adds | apply filled_wf].
Qed.

Lemma fill_defaults_keeps_witness :
  fill_defaults "u9" (VDict [ ("accountEnabled", VBool true);
                              ("id", VStr "u1");
                              ("signInActivity", absent_activity) ])
  = Ok (VDict [ ("accountEnabled", VBool true);
                ("id", VStr "u1");
                ("signInActivity", absent_activity) ]).
Proof.
  apply (fill_defaults_keeps "u1" "u9" (VDict [("accountEnabled", VBool true)])).
  vm_compute. reflexivity.
Defined.

(** X10: the batch.  When every request is answered with a JSON object the
    fetch returns, each result being the response with its defaults filled
    in; when the fetch raises, it raises [Exception] wrapping what one of
    the requests raised, and a request that fails makes the fetch raise. *)
Theorem get_aad_users_batch (session : string -> string -> result value)
        (endpoint : string) (user_ids query_select : list string)
        (api_version : string) :
  ((forall user_id,
       In user_id user_ids ->
       exists d,
         session (endpoint ++ "/" ++ api_version ++ "/users/" ++ user_id)
                 (String.concat "," query_select) = Ok (VDict d)) ->
   exists results,
     get_aad_users session endpoint user_ids query_select api_version = Ok results
     /\ Forall2
          (fun user_id r =>
             exists d,
               session (endpoint ++ "/" ++ api_version ++ "/users/" ++ user_id)
                       (String.concat "," query_select) = Ok (VDict d)
               /\ fill_defaults user_id (VDict d) = Ok r)
          user_ids results)
  /\ (forall e,
         get_aad_users session endpoint user_ids query_select api_version = Raise e ->
         exists user_id cause,
           In user_id user_ids /\ e = Exception cause
           /\ (session (endpoint ++ "/" ++ api_version ++ "/users/" ++ user_id)
                       (String.concat "," query_select) = Raise cause
               \/ exists raw,
                    session (endpoint ++ "/" ++ api_version ++ "/users/" ++ user_id)
                            (String.concat "," query_select) = Ok raw
                    /\ fill_defaults user_id raw = Raise cause))
  /\ (forall user_id,
         In user_id user_ids ->
         raises (session (endpoint ++ "/" ++ api_version ++ "/users/" ++ user_id)
                         (String.concat "," query_select)) ->
         raises (get_aad_users session endpoint user_ids query_select api_version)).
Proof.
  unfold get_aad_users. split; [|split].
  - intros Hobj.
    destruct (comprehension_ok
                (fun user_id =>
                   get_url session
                           (endpoint ++ "/" ++ api_version ++ "/users/" ++ user_id)
                           user_id (String.concat "," query_select))
                user_ids) as [results Hr].
    { intros u Hu. destruct (Hobj u Hu) as [d Hd]. unfold get_url.
      rewrite Hd. cbn [bind]. rewrite FetchFacts.fill_defaults_object.
      eexists; reflexivity. }
    exists results. split; [exact Hr|].
    apply (FetchFacts.Forall2_impl_in _ _ _ _ (comprehension_Forall2 _ _ _ Hr)).
    intros u r Hu Hget. destruct (Hobj u Hu) as [d Hd]. exists d.
    split; [exact Hd|].
    destruct (FetchFacts.get_url_ok _ _ _ _ _ Hget) as (raw & Hraw & Hfill).
    congruence.
  - intros e H. destruct (comprehension_raise_inv _ _ _ H) as (u & Hu & Hget).
    unfold get_url, reraise in Hget.
    destruct (session _ _) as [raw|cause] eqn:Hs; cbn [bind] in Hget.
    + destruct (fill_defaults u raw) as [r|cause] eqn:Hf; [discriminate|].
      injection Hget as <-. exists u, cause. split; [exact Hu|].
      split; [reflexivity|]. right. now exists raw.
    + injection Hget as <-. exists u, cause. auto.
  - intros u Hu [cause Hs].
    destruct (comprehension_raise
                (fun user_id =>
                   get_url session
                           (endpoint ++ "/" ++ api_version ++ "/users/" ++ user_id)
                           user_id (String.concat "," query_select))
                user_ids) as (_ & e & _ & _ & Hc).
    + exists u. split; [exact Hu|]. exists (Exception cause).
      unfold get_url. now rewrite Hs.
    + now exists e.
Qed.

Lemma get_aad_users_batch_witness :
  (exists results,
      get_aad_users example_session "https://graph.microsoft.com" ["u1"; "u2"]
                    ["signInActivity"] "beta" = Ok results)
  /\ raises (get_aad_users example_session "https://graph.microsoft.com"
                           ["u1"; "u3"] ["signInActivity"] "beta").
Proof.
  split.
  - destruct (get_aad_users_batch example_session "https://graph.microsoft.com"
                                  ["u1"; "u2"] ["signInActivity"] "beta")
      as (Hobj & _ & _).
    destruct Hobj as (results & Hr & _).
    + intros u [<-|[<-|[]]]; eexists; vm_compute; reflexivity.
    + now exists results.
  - destruct (get_aad_users_batch example_session "https://graph.microsoft.com"
                                  ["u1"; "u3"] ["signInActivity"] "beta")
      as (_ & _ & Hfail).
    apply (Hfail "u3").
    + simpl. intuition.
    + exists ValueError. vm_compute. reflexivity.
Defined.

(** ** The merge, again *)

Lemma comprehension_Forall {A B : Type} (f : A -> result B) (P : B -> Prop)
      (l : list A) (ys : list B) :
  (forall x y, In x l -> f x = Ok y -> P y) ->
  comprehension f l = Ok ys -> Forall P ys.
Proof.
  intros HP H. pose proof (comprehension_Forall2 _ _ _ H) as Hall. clear H.
  induction Hall as [|x y l ys Hxy Hall IH]; constructor.
  - apply (HP x y); [now left | exact Hxy].
  - apply IH. intros x' y' Hx'. apply HP. now right.
Qed.

(** X11: the merge reads the secondary mapping at the keys of the primary
    one only, so detail records of other users change nothing; and the
    merged records keep their keys distinct when the primary records
    do. *)
Theorem user_details_merged_reads (A B B' : Dict.t record) :
  ((forall k, In k (Dict.keys A) -> Dict.get k B = Dict.get k B') ->
   user_details_merged A B = user_details_merged A B')
  /\ (Forall (fun kv => Dict.wf (snd kv)) A ->
      forall merged, user_details_merged A B = Ok merged ->
                     Forall (fun r => Dict.wf r) merged).
Proof.
  unfold user_details_merged. split.
  - intros Hsame. apply comprehension_ext. intros k Hk.
    unfold Dict.getitem. now rewrite (Hsame k Hk).
  - intros HwfA merged. apply comprehension_Forall. intros k r Hk Hstep.
    destruct (merge_step_ok A B k r Hstep) as (a & b & Ha & Hb & ->).
    apply DictFacts.wf_union. rewrite Forall_forall in HwfA.
    exact (HwfA (k, a) (get_in_items k A a Ha)).
Qed.

Lemma user_details_merged_reads_witness :
  user_details_merged
    [ ("u1", [("id", VStr "u1")]) ]
    [ ("u1", [("accountEnabled", VBool true)]) ]
  = user_details_merged
      [ ("u1", [("id", VStr "u1")]) ]
      [ ("u0", [("accountEnabled", VBool false)]);
        ("u1", [("accountEnabled", VBool true)]) ].
Proof.
  apply user_details_merged_reads.
  intros k [<-|[]]. vm_compute. reflexivity.
Defined.

(** ** From the fetch to the row *)

(** X12: a fetched detail record, merged over any registration record.
    The merged record has the id and the sign-in activity of the fetched
    one, so neither key can be missing for the row builder; and when the
    response came without a sign-in activity, a row built from the merged
    record shows "N/A" in both sign-in columns. *)
Theorem fetched_record_row (set_order : list string -> list string)
        (registration d d' : record) (user_id : string) :
  Dict.wf d ->
  fill_defaults user_id (VDict d) = Ok (VDict d') ->
  Dict.get "id" (Dict.union registration d')
  = Some (match Dict.get "id" d with Some v => v | None => VStr user_id end)
  /\ Dict.get "signInActivity" (Dict.union registration d')
     = Some (match Dict.get "signInActivity" d with
             | Some v => v
             | None => absent_activity
             end)
  /\ (Dict.get "signInActivity" d = None ->
      forall row,
        xlsx_row set_order (Dict.union registration d') = Ok row ->
        Dict.getitem "lastInteractiveSignInUTC" row = Ok (VStr "N/A")
        /\ Dict.getitem "lastNonInteractiveSignInUTC" row = Ok (VStr "N/A")).
Proof.
  intros Hwf Hfill. rewrite FetchFacts.fill_defaults_object in Hfill.
  injection Hfill as <-.
  pose proof (filled_wf user_id d Hwf) as Hwf'.
  assert (Hid : Dict.get "id" (Dict.union registration (filled user_id d))
                = Some (match Dict.get "id" d with
                        | Some v => v
                        | None => VStr user_id
                        end)).
  { rewrite (DictFacts.get_union _ _ Hwf'). now rewrite FetchFacts.filled_id. }
  assert (Hact : Dict.get "signInActivity" (Dict.union registration (filled user_id d))
                 = Some (match Dict.get "signInActivity" d with
                         | Some v => v
                         | None => absent_activity
                         end)).
  { rewrite (DictFacts.get_union _ _ Hwf'). now rewrite FetchFacts.filled_activity. }
  split; [exact Hid|]. split; [exact Hact|].
  intros Hnone row H. rewrite Hnone in Hact.
  unfold xlsx_row in H. step_binds H.
  repeat match goal with
         | E : Dict.getitem "signInActivity" _ = Ok _ |- _ =>
             apply getitem_ok in E; rewrite Hact in E; injection E as <-
         end.
  repeat match goal with
         | E : subscript absent_activity _ = Ok _ |- _ =>
             vm_compute in E; injection E as <-
         end.
  repeat match goal with
         | E : is_datetime VNone = Ok _ |- _ =>
             vm_compute in E; injection E as <-
         end.
  injection H as <-. split; reflexivity.
Qed.

Lemma fetched_record_row_witness :
  Dict.get "id"
    (Dict.union [("id", VStr "u1"); ("userDisplayName", VStr "John")]
                [("accountEnabled", VBool true); ("id", VStr "u1");
                 ("signInActivity", absent_activity)])
  = Some (VStr "u1").
Proof.
  destruct (fetched_record_row
              (nodup string_dec)
              [("id", VStr "u1"); ("userDisplayName", VStr "John")]
              [("accountEnabled", VBool true)]
              [("accountEnabled", VBool true); ("id", VStr "u1");
               ("signInActivity", absent_activity)]
              "u1") as (Hid & _ & _).
  - repeat constructor; simpl; intuition discriminate.
  - vm_compute. reflexivity.
  - exact Hid.
Defined.

(** ** The two synchronous requests *)

(** X13: the registration report.  The function returns a value exactly
    when the response is a JSON object with the key "value", and then it
    returns what the key holds; an object without the key raises
    [Exception] chained from [Exception(response)]; whatever it raises is
    an [Exception] chained from the cause. *)
Theorem get_auth_user_details_value
        (requests_get_json : string -> list (string * string) -> result value)
        (endpoint api_version : string) :
  (forall v,
      get_auth_user_details requests_get_json endpoint api_version = Returns v
      <-> exists d,
            requests_get_json
              (endpoint ++ "/myorganization/activities/authenticationMethodUserDetails")
              [("api-version", api_version)] = Ok (VDict d)
            /\ Dict.get "value" d = Some v)
  /\ (forall d,
         requests_get_json
           (endpoint ++ "/myorganization/activities/authenticationMethodUserDetails")
           [("api-version", api_version)] = Ok (VDict d) ->
         Dict.get "value" d = None ->
         get_auth_user_details requests_get_json endpoint api_version
         = Raises (ExceptionFrom (ExceptionOf (VDict d))))
  /\ (forall e,
         get_auth_user_details requests_get_json endpoint api_version = Raises e ->
         exists cause, e = ExceptionFrom cause).
Proof.
  unfold get_auth_user_details. split; [|split].
  - intros v. split.
    + destruct (requests_get_json _ _) as [response|e];
        cbn [lift and_then rewrap]; [|discriminate].
      destruct response as [| b | n | s | l | d];
        cbn [contains subscript lift and_then rewrap]; try discriminate.
      * destruct (Re.re_search (Re.lits "value") s);
          cbn [lift and_then rewrap]; discriminate.
      * destruct (existsb _ l); cbn [lift and_then rewrap]; discriminate.
      * unfold Dict.mem, Dict.getitem.
        destruct (Dict.get "value" d) as [v'|] eqn:E;
          cbn [lift and_then rewrap]; [|discriminate].
        intros H. injection H as <-. now exists d.
    + intros (d & -> & Hv). cbn. unfold Dict.mem, Dict.getitem.
      now rewrite Hv.
  - intros d -> Hnone. cbn. unfold Dict.mem. now rewrite Hnone.
  - intros e.
    destruct (_ <~ _ ;; _) as [v|cause]; cbn; [discriminate|].
    intros H. injection H as <-. now exists cause.
Qed.

Lemma get_auth_user_details_value_witness :
  get_auth_user_details (fun _ _ => Ok (VDict [("error", VStr "denied")]))
                        "https://graph.windows.net" "beta"
  = Raises (ExceptionFrom (ExceptionOf (VDict [("error", VStr "denied")]))).
Proof.
  destruct (get_auth_user_details_value
              (fun _ _ => Ok (VDict [("error", VStr "denied")]))
              "https://graph.windows.net" "beta") as (_ & Hmissing & _).
  apply Hmissing; reflexivity.
Defined.

(** X14: the tenant.  The function returns a value exactly when the
    response is a JSON object whose "value" is a non-empty list, of which
    it returns the first element, or a non-empty string, of which it
    returns the first character; an empty list raises [Exception] chained
    from [IndexError]. *)
Theorem get_tenant_first
        (requests_get_json : string -> list (string * string) -> result value) :
  (forall t,
      get_tenant requests_get_json = Returns t
      <-> exists d,
            requests_get_json "https://graph.microsoft.com/v1.0/organization" []
            = Ok (VDict d)
            /\ ((exists rest, Dict.get "value" d = Some (VList (t :: rest)))
                \/ exists c s, Dict.get "value" d = Some (VStr (String c s))
                               /\ t = VStr (String c "")))
  /\ (forall d,
         requests_get_json "https://graph.microsoft.com/v1.0/organization" []
         = Ok (VDict d) ->
         Dict.get "value" d = Some (VList []) ->
         get_tenant requests_get_json = Raises (ExceptionFrom IndexError)).
Proof.
  unfold get_tenant. split.
  - intros t. split.
    + destruct (requests_get_json _ _) as [response|e];
        cbn [lift and_then rewrap]; [|discriminate].
      destruct response as [| b | n | s | l | d];
        cbn [subscript lift and_then rewrap]; try discriminate.
      unfold Dict.getitem.
      destruct (Dict.get "value" d) as [v|] eqn:E;
        cbn [lift and_then rewrap]; [|discriminate].
      destruct v as [| b | n | [|c s] | [|x l] | d0];
        cbn [first_item rewrap]; try discriminate;
        intros H; injection H as <-; exists d; (split; [reflexivity|]).
      * right. now exists c, s.
      * left. now exists l.
    + intros (d & -> & [[rest Hv] | (c & s & Hv & ->)]); cbn;
        unfold Dict.getitem; now rewrite Hv.
  - intros d -> Hv. cbn. unfold Dict.getitem. now rewrite Hv.
Qed.

Lemma get_tenant_first_witness :
  get_tenant (fun _ _ => Ok (VDict [("value", VList [])]))
  = Raises (ExceptionFrom IndexError).
Proof.
  destruct (get_tenant_first (fun _ _ => Ok (VDict [("value", VList [])])))
    as (_ & Hempty).
  apply (Hempty [("value", VList [])]); reflexivity.
Defined.

(** ** The certificate store *)

Module FileFacts.

Lemma orig_differs (path : string) : path <> path ++ ".orig".
Proof.
  intros H. apply (f_equal String.length) in H.
  rewrite string_length_app in H. cbn [String.length] in H. lia.
Qed.

Lemma write_same (path content : string) (fs : files) :
  write_file path content fs path = Some content.
Proof. unfold write_file. now rewrite String.eqb_refl. Qed.

Lemma write_other (path content : string) (fs : files) (p : string) :
  p <> path -> write_file path content fs p = fs p.
Proof.
  intros H. unfold write_file.
  destruct (String.eqb_spec p path); [contradiction | reflexivity].
Qed.

(** The bundle that a run installs: the saved original when there is one,
    the current bundle otherwise. *)
Lemma handle_custom_ssl_spec (ca : string) (fs : files) :
  ca <> "certificate.pem" -> ca ++ ".orig" <> "certificate.pem" ->
  match (match fs (ca ++ ".orig") with Some o => Some o | None => fs ca end) with
  | None => handle_custom_ssl ca fs = Raises (FileNotFoundError ca)
  | Some base =>
      exists fs1,
        handle_custom_ssl ca fs = Returns fs1
        /\ fs1 (ca ++ ".orig") = Some base
        /\ fs1 ca = Some (match fs "certificate.pem" with
                          | Some custom => base ++ custom
                          | None => base
                          end)
        /\ forall p, p <> ca -> p <> ca ++ ".orig" -> fs1 p = fs p
  end.
Proof.
  intros Hca Horig. pose proof (orig_differs ca) as Hdiff.
  assert (Hdiff' : ca ++ ".orig" <> ca) by congruence.
  assert (Hc1 : "certificate.pem" <> ca) by congruence.
  assert (Hc2 : "certificate.pem" <> ca ++ ".orig") by congruence.
  unfold handle_custom_ssl, isfile, copyfile, read_bytes, append_bytes.
  destruct (fs (ca ++ ".orig")) as [o|] eqn:Ho.
  - cbn [and_then]. rewrite (write_other ca o fs _ Hc1).
    destruct (fs "certificate.pem") as [custom|] eqn:Hcustom; cbn [and_then].
    + eexists. split; [reflexivity|]. rewrite write_same.
      split; [now rewrite !write_other by assumption|].
      split; [now rewrite write_same|].
      intros p Hp1 Hp2. now rewrite !write_other by assumption.
    + eexists. split; [reflexivity|].
      split; [now rewrite write_other by assumption|].
      split; [now rewrite write_same|].
      intros p Hp1 Hp2. now rewrite write_other by assumption.
  - destruct (fs ca) as [b|] eqn:Hb; cbn [and_then]; [|reflexivity].
    rewrite (write_other (ca ++ ".orig") b fs _ Hc2).
    destruct (fs "certificate.pem") as [custom|] eqn:Hcustom; cbn [and_then].
    + eexists. split; [reflexivity|].
      rewrite (write_other (ca ++ ".orig") b fs ca Hdiff), Hb.
      split; [now rewrite write_other, write_same by assumption|].
      split; [now rewrite write_same|].
      intros p Hp1 Hp2. now rewrite !write_other by assumption.
    + eexists. split; [reflexivity|].
      split; [now rewrite write_same|].
      split; [now rewrite write_other by assumption|].
      intros p Hp1 Hp2. now rewrite write_other by assumption.
Qed.

End FileFacts.

(** X15: the effect of [handle_custom_ssl].  With no saved original and no
    bundle it raises [FileNotFoundError] for the bundle.  Otherwise it
    returns, the saved original is the original bundle (the earlier saved
    one, or else the bundle found), the bundle is that original followed
    by the custom certificate when there is one, and no other file
    changes. *)
Theorem handle_custom_ssl_effect (ca : string) (fs : files) :
  ca <> "certificate.pem" -> ca ++ ".orig" <> "certificate.pem" ->
  match (match fs (ca ++ ".orig") with Some o => Some o | None => fs ca end) with
  | None => handle_custom_ssl ca fs = Raises (FileNotFoundError ca)
  | Some base =>
      exists fs1,
        handle_custom_ssl ca fs = Returns fs1
        /\ fs1 (ca ++ ".orig") = Some base
        /\ fs1 ca = Some (match fs "certificate.pem" with
                          | Some custom => base ++ custom
                          | None => base
                          end)
        /\ forall p, p <> ca -> p <> ca ++ ".orig" -> fs1 p = fs p
  end.
Proof. exact (FileFacts.handle_custom_ssl_spec ca fs). Qed.

Lemma handle_custom_ssl_effect_witness :
  exists fs1,
    handle_custom_ssl "/venv/cacert.pem" example_files = Returns fs1
    /\ fs1 "/venv/cacert.pem.orig" = Some "BUNDLE"
    /\ fs1 "/venv/cacert.pem" = Some "BUNDLECUSTOM".
Proof.
  pose proof (handle_custom_ssl_effect "/venv/cacert.pem" example_files) as H.
  cbv beta iota delta [example_files] in H. cbn in H.
  destruct H as (fs1 & Hrun & Horig & Hca & _); try discriminate.
  exists fs1. repeat split; assumption.
Defined.

(** X16: running [handle_custom_ssl] again changes nothing: the custom
    certificate is appended to the saved original, not to the bundle of
    the previous run. *)
Theorem handle_custom_ssl_idempotent (ca : string) (fs fs1 : files) :
  ca <> "certificate.pem" -> ca ++ ".orig" <> "certificate.pem" ->
  handle_custom_ssl ca fs = Returns fs1 ->
  exists fs2,
    handle_custom_ssl ca fs1 = Returns fs2 /\ forall p, fs2 p = fs1 p.
Proof.
  intros Hca Horig Hrun.
  pose proof (FileFacts.handle_custom_ssl_spec ca fs Hca Horig) as H1.
  destruct (match fs (ca ++ ".orig") with Some o => Some o | None => fs ca end)
    as [base|]; [|congruence].
  destruct H1 as (fs1' & Hrun' & Ho & Hb & Hrest).
  assert (fs1' = fs1) by congruence. subst fs1'.
  pose proof (FileFacts.handle_custom_ssl_spec ca fs1 Hca Horig) as H2.
  rewrite Ho in H2. destruct H2 as (fs2 & Hrun2 & Ho2 & Hb2 & Hrest2).
  exists fs2. split; [exact Hrun2|]. intros p.
  destruct (String.eqb_spec p ca) as [->|Hp1].
  - rewrite Hb2, Hb. rewrite (Hrest "certificate.pem"); congruence.
  - destruct (String.eqb_spec p (ca ++ ".orig")) as [->|Hp2].
    + congruence.
    + now apply Hrest2.
Qed.

Lemma handle_custom_ssl_idempotent_witness :
  exists fs1 fs2,
    handle_custom_ssl "/venv/cacert.pem" example_files = Returns fs1
    /\ handle_custom_ssl "/venv/cacert.pem" fs1 = Returns fs2
    /\ fs2 "/venv/cacert.pem" = fs1 "/venv/cacert.pem".
Proof.
  eexists. 
  destruct (handle_custom_ssl_idempotent
              "/venv/cacert.pem" example_files
              (append_bytes "/venv/cacert.pem" "CUSTOM"
                 (write_file "/venv/cacert.pem.orig" "BUNDLE" example_files)))
    as (fs2 & Hrun2 & Hsame); try discriminate.
  - reflexivity.
  - exists fs2. split; [reflexivity|]. split; [exact Hrun2 | apply Hsame].
Defined.
